(** * VirtualList: windowing, height tracking and scroll bookkeeping

    A shallow embedding of the script block of
    [packages/ui/src/lib/components/VirtualList.svelte].

    Conventions of the embedding.
    - A JavaScript [number] that holds a pixel quantity, an index or a count
      is an integer of [Z]; the only falsy number is then [0].  This is what
      the component computes when default height, render distance, scroll
      offset, viewport size and measured heights are integers (below 2^53,
      where the arithmetic of doubles is exact).  The functions that add
      and compare pixel quantities are embedded a second time on doubles,
      in [Binary64], for the inputs that have a fraction.
    - A JavaScript array that is used sparsely ([heightMap], [lockedHeights],
      [heightUnlockTimeouts]) is a finite map from keys to numbers together
      with its [length] property.
    - The component's [let] variables form one record, [State]; every
      function of the script block is a function on that record.  The
      properties passed by the parent form the record [Props].
    - An [async] function is embedded up to its first [await]: the result
      says whether the call returned, threw, or is suspended, and where. *)

From stdpp Require Import base option list strings pretty gmap fin_maps.
From Stdlib Require Import ZArith Lia Bool.
From Stdlib Require PrimFloat.

#[local] Open Scope Z_scope.

(** ** JavaScript values used by the component *)

(** [x || d] on an optional number: [undefined] and [0] are falsy. *)
Definition truthy (o : option Z) : bool :=
  match o with
  | Some v => negb (v =? 0)
  | None => false
  end.

Definition js_or (o : option Z) (d : Z) : Z :=
  match o with
  | Some v => if v =? 0 then d else v
  | None => d
  end.

(** [l[i]] for an array-like [l] without holes and a numeric [i]. *)
Definition nth_z {A : Type} (l : list A) (i : Z) : option A :=
  if i <? 0 then None else l !! Z.to_nat i.

(** The length of an array as a number. *)
Definition zlength {A : Type} (l : list A) : Z := Z.of_nat (length l).

Module JsArray.

(** A sparse array of numbers: the own properties that are set, and the
    [length] property.  A key that is not set reads as [undefined]. *)
Record t : Type := mk { elems : gmap Z Z; len : Z }.

(** [[]] *)
Definition empty : t := mk ∅ 0.

(** [new Array(n)]: [n] holes. *)
Definition new (n : Z) : t := mk ∅ n.

(** [a[i]] *)
Definition get (a : t) (i : Z) : option Z := elems a !! i.

(** [a[i] = v]: writing at or past the end extends the array; a negative
    key is an ordinary property and leaves [length] alone. *)
Definition set (a : t) (i v : Z) : t :=
  mk (<[i := v]> (elems a))
     (if (0 <=? i) && (len a <=? i) then i + 1 else len a).

(** [delete a[i]]: leaves a hole, [length] is unchanged. *)
Definition remove (a : t) (i : Z) : t := mk (delete i (elems a)) (len a).

(** [a.length = n]: drops the entries at indices [n] and above. *)
Definition set_length (a : t) (n : Z) : t :=
  mk (filter (λ kv, kv.1 < n) (elems a)) n.

End JsArray.

Abbreviation JsArray := JsArray.t.

(** ** Data of the component *)

(** The part of the scroll container the script reads and writes. *)
Record Viewport : Type := mkViewport {
  scrollTop : Z;
  scrollHeight : Z;
  clientHeight : Z
}.

Record Range : Type := mkRange { r_start : Z; r_end : Z }.

Record Offset : Type := mkOffset { top : Z; bottom : Z }.

Inductive Direction : Type := up | down.

(** The object returned by [calculateVisibleRange]. *)
Record VisibleRange : Type := mkVisibleRange {
  renderStart : Z;
  renderEnd : Z;
  visibleStart : Z;
  visibleEnd : Z
}.

Definition NEAR_BOTTOM_THRESHOLD : Z := 70.
Definition LOAD_MORE_THRESHOLD : Z := 300.
Definition DEBOUNCE_DELAY : Z := 50.
Definition HEIGHT_LOCK_DURATION : Z := 250.

Section Component.

Context {T : Type}.

(** The host's [viewport.scrollTo({ top, behavior: "instant" })]: scrolling
    itself is the browser's business, the component only asks for it. *)
Variable scrollTo : Viewport → Z → Viewport.

(** The properties the script reads.  [items] is [None] while the reactive
    teardown has already taken the array away; [onloadmore] records whether
    the callback was supplied. *)
Record Props : Type := mkProps {
  items : option (list T);
  onloadmore : bool;
  defaultHeight : Z;
  stickToBottom : bool;
  startIndex : option Z;
  renderDistance : Z
}.

(** The component's variables that the functions below read or write, in
    the order of the script, followed by what
    the script keeps in the host: the pending [setTimeout] callbacks (timer
    id to the index it will unlock), the next timer id, and the number of
    calls made to the debounced load-more function.  [visibleRowElements]
    is the live collection of rendered rows, each given by its
    [clientHeight]. *)
Record State : Type := mkState {
  viewport : option Viewport;
  visibleRowElements : option (list Z);
  previousItems : list T;
  heightMap : JsArray;
  lockedHeights : JsArray;
  heightUnlockTimeouts : JsArray;
  renderRange : Range;
  visibleRange : Range;
  offset : Offset;
  previousDistance : Z;
  hasNewItemsAtBottom : bool;
  isRecalculating : bool;
  lastScrollTop : option Z;
  lastScrollDirection : option Direction;
  lastJumpToIndex : option Z;
  skipNextScrollEvent : bool;
  timers : gmap Z Z;
  nextTimerId : Z;
  loadMoreCalls : nat
}.

Definition set_viewport (v : option Viewport) (st : State) : State :=
  mkState v (visibleRowElements st) (previousItems st) (heightMap st)
    (lockedHeights st) (heightUnlockTimeouts st) (renderRange st)
    (visibleRange st) (offset st) (previousDistance st)
    (hasNewItemsAtBottom st) (isRecalculating st) (lastScrollTop st)
    (lastScrollDirection st) (lastJumpToIndex st) (skipNextScrollEvent st)
    (timers st) (nextTimerId st) (loadMoreCalls st).

Definition set_heightMap (v : JsArray) (st : State) : State :=
  mkState (viewport st) (visibleRowElements st) (previousItems st) v
    (lockedHeights st) (heightUnlockTimeouts st) (renderRange st)
    (visibleRange st) (offset st) (previousDistance st)
    (hasNewItemsAtBottom st) (isRecalculating st) (lastScrollTop st)
    (lastScrollDirection st) (lastJumpToIndex st) (skipNextScrollEvent st)
    (timers st) (nextTimerId st) (loadMoreCalls st).

Definition set_lockedHeights (v : JsArray) (st : State) : State :=
  mkState (viewport st) (visibleRowElements st) (previousItems st)
    (heightMap st) v (heightUnlockTimeouts st) (renderRange st)
    (visibleRange st) (offset st) (previousDistance st)
    (hasNewItemsAtBottom st) (isRecalculating st) (lastScrollTop st)
    (lastScrollDirection st) (lastJumpToIndex st) (skipNextScrollEvent st)
    (timers st) (nextTimerId st) (loadMoreCalls st).

Definition set_heightUnlockTimeouts (v : JsArray) (st : State) : State :=
  mkState (viewport st) (visibleRowElements st) (previousItems st)
    (heightMap st) (lockedHeights st) v (renderRange st) (visibleRange st)
    (offset st) (previousDistance st) (hasNewItemsAtBottom st)
    (isRecalculating st) (lastScrollTop st) (lastScrollDirection st)
    (lastJumpToIndex st) (skipNextScrollEvent st) (timers st) (nextTimerId st)
    (loadMoreCalls st).

Definition set_renderRange (v : Range) (st : State) : State :=
  mkState (viewport st) (visibleRowElements st) (previousItems st)
    (heightMap st) (lockedHeights st) (heightUnlockTimeouts st) v
    (visibleRange st) (offset st) (previousDistance st)
    (hasNewItemsAtBottom st) (isRecalculating st) (lastScrollTop st)
    (lastScrollDirection st) (lastJumpToIndex st) (skipNextScrollEvent st)
    (timers st) (nextTimerId st) (loadMoreCalls st).

Definition set_visibleRange (v : Range) (st : State) : State :=
  mkState (viewport st) (visibleRowElements st) (previousItems st)
    (heightMap st) (lockedHeights st) (heightUnlockTimeouts st)
    (renderRange st) v (offset st) (previousDistance st)
    (hasNewItemsAtBottom st) (isRecalculating st) (lastScrollTop st)
    (lastScrollDirection st) (lastJumpToIndex st) (skipNextScrollEvent st)
    (timers st) (nextTimerId st) (loadMoreCalls st).

Definition set_offset (v : Offset) (st : State) : State :=
  mkState (viewport st) (visibleRowElements st) (previousItems st)
    (heightMap st) (lockedHeights st) (heightUnlockTimeouts st)
    (renderRange st) (visibleRange st) v (previousDistance st)
    (hasNewItemsAtBottom st) (isRecalculating st) (lastScrollTop st)
    (lastScrollDirection st) (lastJumpToIndex st) (skipNextScrollEvent st)
    (timers st) (nextTimerId st) (loadMoreCalls st).

Definition set_previousDistance (v : Z) (st : State) : State :=
  mkState (viewport st) (visibleRowElements st) (previousItems st)
    (heightMap st) (lockedHeights st) (heightUnlockTimeouts st)
    (renderRange st) (visibleRange st) (offset st) v (hasNewItemsAtBottom st)
    (isRecalculating st) (lastScrollTop st) (lastScrollDirection st)
    (lastJumpToIndex st) (skipNextScrollEvent st) (timers st) (nextTimerId st)
    (loadMoreCalls st).

Definition set_isRecalculating (v : bool) (st : State) : State :=
  mkState (viewport st) (visibleRowElements st) (previousItems st)
    (heightMap st) (lockedHeights st) (heightUnlockTimeouts st)
    (renderRange st) (visibleRange st) (offset st) (previousDistance st)
    (hasNewItemsAtBottom st) v (lastScrollTop st) (lastScrollDirection st)
    (lastJumpToIndex st) (skipNextScrollEvent st) (timers st) (nextTimerId st)
    (loadMoreCalls st).

Definition set_lastScrollTop (v : option Z) (st : State) : State :=
  mkState (viewport st) (visibleRowElements st) (previousItems st)
    (heightMap st) (lockedHeights st) (heightUnlockTimeouts st)
    (renderRange st) (visibleRange st) (offset st) (previousDistance st)
    (hasNewItemsAtBottom st) (isRecalculating st) v (lastScrollDirection st)
    (lastJumpToIndex st) (skipNextScrollEvent st) (timers st) (nextTimerId st)
    (loadMoreCalls st).

Definition set_lastScrollDirection (v : option Direction) (st : State) : State :=
  mkState (viewport st) (visibleRowElements st) (previousItems st)
    (heightMap st) (lockedHeights st) (heightUnlockTimeouts st)
    (renderRange st) (visibleRange st) (offset st) (previousDistance st)
    (hasNewItemsAtBottom st) (isRecalculating st) (lastScrollTop st) v
    (lastJumpToIndex st) (skipNextScrollEvent st) (timers st) (nextTimerId st)
    (loadMoreCalls st).

Definition set_lastJumpToIndex (v : option Z) (st : State) : State :=
  mkState (viewport st) (visibleRowElements st) (previousItems st)
    (heightMap st) (lockedHeights st) (heightUnlockTimeouts st)
    (renderRange st) (visibleRange st) (offset st) (previousDistance st)
    (hasNewItemsAtBottom st) (isRecalculating st) (lastScrollTop st)
    (lastScrollDirection st) v (skipNextScrollEvent st) (timers st)
    (nextTimerId st) (loadMoreCalls st).

Definition set_skipNextScrollEvent (v : bool) (st : State) : State :=
  mkState (viewport st) (visibleRowElements st) (previousItems st)
    (heightMap st) (lockedHeights st) (heightUnlockTimeouts st)
    (renderRange st) (visibleRange st) (offset st) (previousDistance st)
    (hasNewItemsAtBottom st) (isRecalculating st) (lastScrollTop st)
    (lastScrollDirection st) (lastJumpToIndex st) v (timers st)
    (nextTimerId st) (loadMoreCalls st).

Definition set_timers (v : gmap Z Z) (st : State) : State :=
  mkState (viewport st) (visibleRowElements st) (previousItems st)
    (heightMap st) (lockedHeights st) (heightUnlockTimeouts st)
    (renderRange st) (visibleRange st) (offset st) (previousDistance st)
    (hasNewItemsAtBottom st) (isRecalculating st) (lastScrollTop st)
    (lastScrollDirection st) (lastJumpToIndex st) (skipNextScrollEvent st) v
    (nextTimerId st) (loadMoreCalls st).

Definition set_nextTimerId (v : Z) (st : State) : State :=
  mkState (viewport st) (visibleRowElements st) (previousItems st)
    (heightMap st) (lockedHeights st) (heightUnlockTimeouts st)
    (renderRange st) (visibleRange st) (offset st) (previousDistance st)
    (hasNewItemsAtBottom st) (isRecalculating st) (lastScrollTop st)
    (lastScrollDirection st) (lastJumpToIndex st) (skipNextScrollEvent st)
    (timers st) v (loadMoreCalls st).

Definition set_loadMoreCalls (v : nat) (st : State) : State :=
  mkState (viewport st) (visibleRowElements st) (previousItems st)
    (heightMap st) (lockedHeights st) (heightUnlockTimeouts st)
    (renderRange st) (visibleRange st) (offset st) (previousDistance st)
    (hasNewItemsAtBottom st) (isRecalculating st) (lastScrollTop st)
    (lastScrollDirection st) (lastJumpToIndex st) (skipNextScrollEvent st)
    (timers st) (nextTimerId st) v.

Variable p : Props.

(** ** Height model *)

Definition isInitialized (st : State) : bool :=
  negb (r_end (renderRange st) =? 0).

Definition getItemHeight (st : State) (index : Z) : Z :=
  js_or (JsArray.get (heightMap st) index) (defaultHeight p).

(** The body of the [for] loop of [calculateHeightSum], run [n] times from
    index [i], on integer heights; [Binary64.sum_loop] is the same loop on
    doubles. *)
Fixpoint sum_loop (st : State) (n : nat) (i sum : Z) : Z :=
  match n with
  | O => sum
  | S n' => sum_loop st n' (i + 1) (sum + getItemHeight st i)
  end.

(** [for (let i = startIndex; i < endIndex; i++)] runs
    [max 0 (endIndex - startIndex)] times. *)
Definition calculateHeightSum (st : State) (startIndex endIndex : Z) : Z :=
  sum_loop st (Z.to_nat (endIndex - startIndex)) startIndex 0.

Definition getDistanceFromBottom (st : State) : Z :=
  match viewport st with
  | None => 0
  | Some v => scrollHeight v - scrollTop v - clientHeight v
  end.

Definition isNearBottom (distance : Z) : bool :=
  distance <? NEAR_BOTTOM_THRESHOLD.

Definition updateScrollDirection (st : State) : State :=
  match viewport st with
  | None => st
  | Some v =>
      let dir :=
        match lastScrollTop st with
        | Some l =>
            if scrollTop v <? l then Some up
            else if l <? scrollTop v then Some down
            else None
        | None => None
        end in
      set_lastScrollTop (Some (scrollTop v)) (set_lastScrollDirection dir st)
  end.

Definition shouldTriggerLoadMore (st : State) : bool :=
  match viewport st with
  | None => false
  | Some v =>
      if negb (onloadmore p) then false
      else if scrollHeight v <=? clientHeight v then true
      else if stickToBottom p then scrollTop v <? LOAD_MORE_THRESHOLD
      else
        let distance := getDistanceFromBottom st in
        (0 <=? distance) && (distance <? LOAD_MORE_THRESHOLD)
  end.

(** [window.setTimeout(callback, HEIGHT_LOCK_DURATION)] for the callback
    that unlocks [index]: the host hands out a fresh id. *)
Definition setTimeout (index : Z) (st : State) : Z * State :=
  let id := nextTimerId st in
  (id, set_nextTimerId (id + 1) (set_timers (<[id := index]> (timers st)) st)).

(** [clearTimeout(id)]; [clearTimeout(undefined)] does nothing. *)
Definition clearTimeout (id : option Z) (st : State) : State :=
  match id with
  | None => st
  | Some i => set_timers (delete i (timers st)) st
  end.

(** The callback registered by [lockRowHeight], run by the host when timer
    [id] expires. *)
Definition unlockRowHeight (id : Z) (st : State) : State :=
  match timers st !! id with
  | None => st
  | Some index =>
      let st := set_timers (delete id (timers st)) st in
      let st := set_lockedHeights (JsArray.remove (lockedHeights st) index) st in
      set_heightUnlockTimeouts
        (JsArray.remove (heightUnlockTimeouts st) index) st
  end.

Definition lockRowHeight (st : State) (index : Z) : State :=
  let cachedHeight := JsArray.get (heightMap st) index in
  match cachedHeight with
  | None => st
  | Some h =>
      if h =? 0 then st
      else
        let st := set_lockedHeights (JsArray.set (lockedHeights st) index h) st in
        let st := clearTimeout (JsArray.get (heightUnlockTimeouts st) index) st in
        let '(id, st) := setTimeout index st in
        set_heightUnlockTimeouts
          (JsArray.set (heightUnlockTimeouts st) index id) st
  end.

Definition updateOffsets (st : State) : State :=
  set_offset
    (mkOffset
       (calculateHeightSum st 0 (r_start (renderRange st)))
       (calculateHeightSum st (r_end (renderRange st))
          (JsArray.len (heightMap st))))
    st.

(** The [style:height] of the row rendered for item [index] in the
    template: the locked height when there is one, otherwise none. *)
Definition rowStyleHeight (st : State) (index : Z) : option Z :=
  if truthy (JsArray.get (lockedHeights st) index)
  then JsArray.get (lockedHeights st) index
  else None.

(** ** Range calculation *)

(** [visibleRowElements?.[k]?.clientHeight] *)
Definition rowClientHeight (st : State) (k : Z) : option Z :=
  match visibleRowElements st with
  | None => None
  | Some rows => nth_z rows k
  end.

(** The [for] loop of [calculateVisibleRange]: [n] iterations remain, [i] is
    the loop index, the other arguments are the loop's variables.  Running
    out of iterations is the fall-through [return] after the loop.  Pixel
    quantities are integers here; [Binary64.range_loop] is the same loop on
    doubles. *)
Fixpoint range_loop (st : State) (count scrollTop viewBottom : Z) (n : nat)
    (i renderStart visibleStart visibleEnd accumulatedHeight : Z)
    : VisibleRange :=
  match n with
  | O =>
      mkVisibleRange
        (if renderStart =? -1 then count - 1 else renderStart)
        count
        (if visibleStart =? -1 then count - 1 else visibleStart)
        (if visibleEnd =? -1 then count else visibleEnd)
  | S n' =>
      let rowHeight := rowClientHeight st (i - r_start (renderRange st)) in
      let accumulatedHeight :=
        accumulatedHeight + js_or rowHeight (getItemHeight st i) in
      let renderStart :=
        if (renderStart =? -1)
           && (scrollTop - renderDistance p <=? accumulatedHeight)
        then i else renderStart in
      let visibleStart :=
        if (visibleStart =? -1) && (scrollTop + 1 <=? accumulatedHeight)
        then i else visibleStart in
      let visibleEnd :=
        if (visibleEnd =? -1) && (viewBottom <? accumulatedHeight)
        then i + 1 else visibleEnd in
      if viewBottom + renderDistance p <? accumulatedHeight
      then mkVisibleRange renderStart (i + 1) visibleStart visibleEnd
      else
        range_loop st count scrollTop viewBottom n'
          (i + 1) renderStart visibleStart visibleEnd accumulatedHeight
  end.

(** [None] is the [TypeError] of reading [items.length] when [items] is
    [undefined]. *)
Definition calculateVisibleRange (st : State) : option VisibleRange :=
  match items p with
  | None => None
  | Some its =>
      let count := zlength its in
      match count =? 0, viewport st with
      | false, Some v =>
          let viewBottom := scrollTop v + clientHeight v in
          Some (range_loop st count (scrollTop v) viewBottom
                  (length its) 0 (-1) (-1) (-1) 0)
      | _, _ => Some (mkVisibleRange 0 0 0 0)
      end
  end.

(** ** Asynchronous functions

    Where an [async] function stands after a call: it returned, it is
    suspended at an [await] (the state is the one the host sees while the
    function waits), or it threw. *)
Inductive Suspension : Type :=
  | InitForward (startingAt i : Z)
      (* [initializeAt], first loop: waiting for row [i] to be added *)
  | InitBackward (startingAt i : Z)
      (* [initializeAt], second loop: waiting for row [i] to be added *)
  | InitOffsets (startingAt : Z)
      (* [initializeAt]: waiting after [updateOffsets] *)
  | RecalcTick (bottomDistance visibleStart visibleEnd : Z)
      (* [recalculateRanges]: waiting after the range was replaced *)
  | AddedPrepend (countDelta : Z)
      (* [handleItemsAdded], first branch *)
  | AddedAppend (distance : Z)
      (* [handleItemsAdded], second branch *)
  | RemovedTick
      (* [handleItemsRemovedOrReplaced] *)
  | CalleeReturned
      (* the awaited call has run to its end *)
  | AwaitCall (callee : Suspension).
      (* [await f()]: where [f] stands *)

Inductive Step : Type :=
  | Returned (st : State)
  | Awaiting (st : State) (k : Suspension)
  | Thrown (st : State).

Definition step_state (s : Step) : State :=
  match s with
  | Returned st | Awaiting st _ | Thrown st => st
  end.

(** [await f()] seen from the caller. *)
Definition await_call (s : Step) : Step :=
  match s with
  | Returned st => Awaiting st (AwaitCall CalleeReturned)
  | Awaiting st k => Awaiting st (AwaitCall k)
  | Thrown st => Thrown st
  end.

(** [if (heightMap[i] !== undefined) lockRowHeight(i)] *)
Definition lockIfMeasured (st : State) (i : Z) : State :=
  match JsArray.get (heightMap st) i with
  | Some _ => lockRowHeight st i
  | None => st
  end.

(** [initializeAt] up to its first [await tick()].  Each iteration of either
    loop awaits, so the function stops in the first iteration it enters. *)
Definition initializeAt (st : State) (startingAt : Z) : Step :=
  match viewport st with
  | None => Returned st
  | Some _ =>
      let st :=
        set_renderRange (mkRange startingAt (r_end (renderRange st))) st in
      match items p with
      | None => Thrown st
      | Some its =>
          if startingAt <? zlength its then
            let i := startingAt in
            let st := lockIfMeasured st i in
            let st :=
              set_renderRange (mkRange (r_start (renderRange st)) (i + 1)) st in
            Awaiting st (InitForward startingAt i)
          else if 0 <=? startingAt - 1 then
            let i := startingAt - 1 in
            let st := lockIfMeasured st i in
            let st :=
              set_renderRange (mkRange i (r_end (renderRange st))) st in
            Awaiting st (InitBackward startingAt i)
          else if negb (isInitialized st) then Returned st
          else Awaiting (updateOffsets st) (InitOffsets startingAt)
      end
  end.

Definition scrollToBottom (st : State) : State :=
  match viewport st with
  | None => st
  | Some v =>
      let target := scrollHeight v - clientHeight v in
      set_viewport (Some (scrollTo v target)) st
  end.

(** A call of [debouncedLoadMore]. *)
Definition debouncedLoadMore (st : State) : State :=
  set_loadMoreCalls (S (loadMoreCalls st)) st.

(** [for (...; i++) { if (heightMap[i]) lockRowHeight(i); }], [n]
    iterations from [i]. *)
Fixpoint lock_loop (st : State) (n : nat) (i : Z) : State :=
  match n with
  | O => st
  | S n' =>
      let st :=
        if truthy (JsArray.get (heightMap st) i) then lockRowHeight st i
        else st in
      lock_loop st n' (i + 1)
  end.

(** The end of [recalculateRanges], from the update of [visibleRange] on:
    reached at once when the render range stays, after the tick when it was
    replaced. *)
Definition recalculateRanges_finish (st : State)
    (bottomDistance visibleStart visibleEnd : Z) : State :=
  let st :=
    if negb (visibleStart =? r_start (visibleRange st))
       || negb (visibleEnd =? r_end (visibleRange st))
    then set_visibleRange (mkRange visibleStart visibleEnd) st
    else st in
  let st :=
    if stickToBottom p && (bottomDistance =? 0)
       && negb (getDistanceFromBottom st =? 0)
    then scrollToBottom st
    else st in
  let st := set_previousDistance (getDistanceFromBottom st) st in
  let st := set_isRecalculating false st in
  if shouldTriggerLoadMore st then debouncedLoadMore st else st.

(** [recalculateRanges] when the calculated render range is applied: from
    [renderRange = { start, end }] to the tick. *)
Definition recalculateRanges_replace (st : State)
    (oldStart oldEnd bottomDistance : Z) (r : VisibleRange) : Step :=
  let start := renderStart r in
  let end_ := renderEnd r in
  let st := set_renderRange (mkRange start end_) st in
  let st := updateOffsets st in
  let st := lock_loop st (Z.to_nat (Z.min end_ oldStart - start)) start in
  let st :=
    lock_loop st (Z.to_nat (end_ - Z.max start oldEnd)) (Z.max start oldEnd) in
  Awaiting st (RecalcTick bottomDistance (visibleStart r) (visibleEnd r)).

(** [recalculateRanges] from the destructuring of the calculated ranges
    on. *)
Definition recalculateRanges_apply (st : State)
    (oldStart oldEnd bottomDistance : Z) (r : VisibleRange) : Step :=
  let start := renderStart r in
  let end_ := renderEnd r in
  if negb (start =? r_start (renderRange st))
     || negb (end_ =? r_end (renderRange st))
  then
    if end_ <=? start then
      match items p with
      | None => Thrown st
      | Some its =>
          if 0 <? zlength its then
            (* Degenerate range: preserve current state. *)
            Returned (set_isRecalculating false st)
          else recalculateRanges_replace st oldStart oldEnd bottomDistance r
      end
    else recalculateRanges_replace st oldStart oldEnd bottomDistance r
  else
    Returned
      (recalculateRanges_finish st bottomDistance
         (visibleStart r) (visibleEnd r)).

Definition recalculateRanges (st : State) : Step :=
  match viewport st, visibleRowElements st with
  | Some _, Some _ =>
      if negb (isInitialized st) || isRecalculating st then Returned st
      else
        let st := set_isRecalculating true st in
        let oldStart := r_start (renderRange st) in
        let oldEnd := r_end (renderRange st) in
        let bottomDistance := getDistanceFromBottom st in
        match calculateVisibleRange st with
        | None => Thrown st
        | Some r => recalculateRanges_apply st oldStart oldEnd bottomDistance r
        end
  | _, _ => Returned st
  end.

(** [recalculateRanges] resumed after its tick. *)
Definition recalculateRanges_resume (st : State) (k : Suspension) : State :=
  match k with
  | RecalcTick bottomDistance visibleStart visibleEnd =>
      recalculateRanges_finish st bottomDistance visibleStart visibleEnd
  | _ => st
  end.

(** [jumpToIndex] does not await [initializeAt]: it returns as soon as that
    call reaches its first [await]. *)
Definition jumpToIndex (st : State) (index : Z) : State :=
  match items p with
  | None => st
  | Some its =>
      if (index <? 0) || (zlength its - 1 <? index) then st
      else
        let st := set_lastScrollDirection None st in
        let st := set_skipNextScrollEvent true st in
        let st := set_lastJumpToIndex (Some index) st in
        let st := lockRowHeight st index in
        step_state (initializeAt st index)
  end.

(** ** Reconciliation with a changed item list *)

(** The loop of the prepend branch of [updateHeightMap], [n] iterations
    from [i]. *)
Fixpoint shift_loop (heights : JsArray) (countDelta : Z) (n : nat) (i : Z)
    (shifted : JsArray) : JsArray :=
  match n with
  | O => shifted
  | S n' =>
      let shifted :=
        match JsArray.get heights i with
        | Some h => JsArray.set shifted (i + countDelta) h
        | None => shifted
        end in
      shift_loop heights countDelta n' (i + 1) shifted
  end.

(** [None] is the [TypeError] of [items.length] on an absent [items]; every
    branch reads it before it writes anything. *)
Definition updateHeightMap (st : State) (countDelta : Z)
    (headChanged tailChanged : bool) : option State :=
  match items p with
  | None => None
  | Some its =>
      if headChanged && tailChanged && (0 <? zlength (previousItems st)) then
        let st := set_heightMap (JsArray.new (zlength its)) st in
        Some (set_renderRange (mkRange 0 0) st)
      else if headChanged && negb tailChanged && (0 <? countDelta) then
        let shifted :=
          shift_loop (heightMap st) countDelta (length (previousItems st)) 0
            (JsArray.new (zlength its)) in
        Some (set_heightMap shifted st)
      else
        Some (set_heightMap
                (JsArray.set_length (heightMap st) (zlength its)) st)
  end.

(** [handleItemsAdded] up to its first [await], or to its end. *)
Definition handleItemsAdded (st : State) (countDelta : Z)
    (headChanged tailChanged : bool) : Step :=
  if stickToBottom p && headChanged && negb tailChanged
     && bool_decide (is_Some (viewport st))
  then
    match items p with
    | None => Thrown st
    | Some its =>
        let st :=
          set_renderRange
            (mkRange (r_start (renderRange st) + countDelta)
               (Z.min (r_end (renderRange st) + countDelta) (zlength its)))
            st in
        Awaiting (updateOffsets st) (AddedPrepend countDelta)
    end
  else if stickToBottom p && tailChanged && negb headChanged then
    Awaiting st (AddedAppend (getDistanceFromBottom st))
  else Returned (updateOffsets st).

Definition handleItemsRemovedOrReplaced (st : State) : Step :=
  Awaiting st RemovedTick.

(** [handleItemsChanged] up to its first [await]: the height map is
    reconciled, then one of the three handlers is entered and awaited. *)
Definition handleItemsChanged (st : State) (countDelta : Z)
    (headChanged tailChanged : bool) : Step :=
  match updateHeightMap st countDelta headChanged tailChanged with
  | None => Thrown st
  | Some st =>
      match items p with
      | None => Thrown st
      | Some its =>
          if negb (isInitialized st) && (0 <? zlength its) then
            let initAt :=
              if stickToBottom p then zlength its - 1
              else js_or (startIndex p) 0 in
            await_call (initializeAt st initAt)
          else if 0 <? countDelta then
            await_call (handleItemsAdded st countDelta headChanged tailChanged)
          else await_call (handleItemsRemovedOrReplaced st)
      end
  end.

(** The scroll handler of the container. *)
Definition onscroll (st : State) : Step :=
  match viewport st with
  | None => Returned st
  | Some _ =>
      if skipNextScrollEvent st then
        Returned (set_skipNextScrollEvent false st)
      else recalculateRanges (updateScrollDirection st)
  end.

(** ** Further parts of the script

    The remaining steps of [initializeAt], the handling of resize
    notifications, the effect that watches [items], and the list of rendered
    items. *)

Definition set_previousItems (v : list T) (st : State) : State :=
  mkState (viewport st) (visibleRowElements st) v (heightMap st)
    (lockedHeights st) (heightUnlockTimeouts st) (renderRange st)
    (visibleRange st) (offset st) (previousDistance st)
    (hasNewItemsAtBottom st) (isRecalculating st) (lastScrollTop st)
    (lastScrollDirection st) (lastJumpToIndex st) (skipNextScrollEvent st)
    (timers st) (nextTimerId st) (loadMoreCalls st).

(** The host's [viewport.scrollTop = value]. *)
Variable assignScrollTop : Viewport → Z → Viewport.

(** The host's [viewport.scrollBy({ top })]; [None] is the [NaN] that comes
    out of a subtraction from [undefined]. *)
Variable scrollBy : Viewport → option Z → Viewport.

(** [getId], and whether an item is a truthy value. *)
Variable getId : T → option string.
Variable truthyItem : T → bool.

(** [l.slice(start, end)]: a negative bound counts from the end, and both
    bounds are clamped to the array. *)
Definition js_slice {A : Type} (l : list A) (start end_ : Z) : list A :=
  let len := zlength l in
  let k := if start <? 0 then Z.max (len + start) 0 else Z.min start len in
  let final := if end_ <? 0 then Z.max (len + end_) 0 else Z.min end_ len in
  take (Z.to_nat (final - k)) (drop (Z.to_nat k) l).

(** The derived [renderItems]; [None] is the [TypeError] on an absent
    [items]. *)
Definition renderItems (st : State) : option (list T) :=
  match items p with
  | None => None
  | Some its =>
      Some (js_slice its (r_start (renderRange st)) (r_end (renderRange st)))
  end.

(** [initializeAt] after its two loops. *)
Definition initializeAt_settle (st : State) (startingAt : Z) : Step :=
  if negb (isInitialized st) then Returned st
  else Awaiting (updateOffsets st) (InitOffsets startingAt).

(** The second loop of [initializeAt] from the test of its condition at
    [i]. *)
Definition initializeAt_backward (st : State) (startingAt i : Z) : Step :=
  if 0 <=? i then
    let st := lockIfMeasured st i in
    let st := set_renderRange (mkRange i (r_end (renderRange st))) st in
    Awaiting st (InitBackward startingAt i)
  else initializeAt_settle st startingAt.

(** The first loop of [initializeAt] from the test of its condition at
    [i]. *)
Definition initializeAt_forward (st : State) (startingAt i : Z) : Step :=
  match items p with
  | None => Thrown st
  | Some its =>
      if i <? zlength its then
        let st := lockIfMeasured st i in
        let st :=
          set_renderRange (mkRange (r_start (renderRange st)) (i + 1)) st in
        Awaiting st (InitForward startingAt i)
      else initializeAt_backward st startingAt (startingAt - 1)
  end.

(** [initializeAt] resumed after a tick, on the state the host shows then:
    the row that was waited for is measured and the loop goes on to its
    next [await], or the function ends. *)
Definition initializeAt_resume (st : State) (k : Suspension) : Step :=
  match k with
  | InitForward startingAt i =>
      match rowClientHeight st (i - startingAt) with
      | None => Returned st
      | Some h =>
          let st := set_heightMap (JsArray.set (heightMap st) i h) st in
          match viewport st with
          | None => Thrown st
          | Some v =>
              if clientHeight v + renderDistance p
                 <? calculateHeightSum st startingAt (r_end (renderRange st))
              then initializeAt_backward st startingAt (startingAt - 1)
              else initializeAt_forward st startingAt (i + 1)
          end
      end
  | InitBackward startingAt i =>
      match rowClientHeight st 0 with
      | None => Returned st
      | Some h =>
          let heightDiff :=
            h - js_or (JsArray.get (lockedHeights st) i) (defaultHeight p) in
          let scrolled :=
            if heightDiff =? 0 then Some st
            else
              match viewport st with
              | None => None
              | Some v =>
                  Some (set_viewport
                          (Some (assignScrollTop v (scrollTop v + heightDiff)))
                          st)
              end in
          match scrolled with
          | None => Thrown st
          | Some st =>
              let st := set_heightMap (JsArray.set (heightMap st) i h) st in
              match viewport st with
              | None => Thrown st
              | Some v =>
                  if clientHeight v + 2 * renderDistance p
                     <? calculateHeightSum st (r_start (renderRange st))
                          (r_end (renderRange st))
                  then initializeAt_settle st startingAt
                  else initializeAt_backward st startingAt (i - 1)
              end
          end
      end
  | InitOffsets startingAt =>
      match viewport st with
      | None => Returned st
      | Some v =>
          Returned
            (set_viewport
               (Some (assignScrollTop v (calculateHeightSum st 0 startingAt)))
               st)
      end
  | _ => Returned st
  end.

(** [compensateScrollForResize]; it throws when it reads [items.length] on
    an absent [items]. *)
Definition compensateScrollForResize (st : State) (index oldHeight : Z)
    : Step :=
  match viewport st with
  | None => Returned st
  | Some v =>
      let scrollingUp :=
        match lastScrollDirection st with Some up => true | _ => false end in
      let noDirection :=
        match lastScrollDirection st with None => true | _ => false end in
      if scrollingUp
         && negb (calculateHeightSum st 0 (r_start (renderRange st))
                  =? scrollTop v)
         && (r_start (renderRange st) =? index)
      then
        let delta :=
          match JsArray.get (heightMap st) index with
          | Some h => Some (h - oldHeight)
          | None => None
          end in
        Returned (set_viewport (Some (scrollBy v delta)) st)
      else if (bool_decide (is_Some (lastJumpToIndex st))
               || truthy (startIndex p))
              && noDirection
      then
        let target :=
          calculateHeightSum st 0
            (js_or (lastJumpToIndex st) (js_or (startIndex p) 0)) in
        let st := set_viewport (Some (assignScrollTop v target)) st in
        Returned (set_skipNextScrollEvent true st)
      else if isNearBottom (previousDistance st) && negb scrollingUp then
        let snap (st : State) : Step :=
          Returned (scrollToBottom (set_skipNextScrollEvent true st)) in
        if stickToBottom p && (2 <? getDistanceFromBottom st) then snap st
        else
          match items p with
          | None => Thrown st
          | Some its =>
              if (index =? zlength its - 1) && negb (scrollTop v =? 0)
              then snap st
              else Returned st
          end
      else Returned st
  end.

(** What the resize callback reads from an entry: whether its target is
    connected, whether it is an [HTMLElement], its [data-index] as a number
    when the attribute is not empty, and its [clientHeight]. *)
Record ResizeEntry : Type := mkResizeEntry {
  isConnected : bool;
  isHTMLElement : bool;
  datasetIndex : option Z;
  targetClientHeight : Z
}.

(** The loop of the resize callback over the entries.  The result carries
    [shouldRecalculate]; [inr] is the state at which the loop threw. *)
Fixpoint observe_entries (st : State) (shouldRecalculate : bool)
    (entries : list ResizeEntry) : (State * bool) + State :=
  match entries with
  | [] => inl (st, shouldRecalculate)
  | entry :: rest =>
      if negb (isConnected entry) then
        observe_entries st shouldRecalculate rest
      else if negb (isHTMLElement entry) then
        observe_entries st shouldRecalculate rest
      else
        match datasetIndex entry with
        | None => observe_entries st true rest
        | Some index =>
            let oldHeight := getItemHeight st index in
            let st :=
              if bool_decide (JsArray.get (heightMap st) index
                              = Some (targetClientHeight entry))
              then st
              else
                set_heightMap
                  (JsArray.set (heightMap st) index (targetClientHeight entry))
                  st in
            match compensateScrollForResize st index oldHeight with
            | Returned st | Awaiting st _ => observe_entries st true rest
            | Thrown st => inr st
            end
        end
  end.

(** The callback of [itemObserver]; the call of [recalculateRanges] is not
    awaited. *)
Definition itemObserver (st : State) (entries : list ResizeEntry) : Step :=
  match viewport st with
  | None => Returned st
  | Some _ =>
      match observe_entries st false entries with
      | inl (st, true) => recalculateRanges st
      | inl (st, false) => Returned st
      | inr st => Thrown st
      end
  end.

(** [!previous || getId(current) !== getId(previous)] *)
Definition identityChanged (previous : option T) (current : T) : bool :=
  match previous with
  | None => true
  | Some prev =>
      negb (truthyItem prev) || negb (bool_decide (getId current = getId prev))
  end.

(** The effect that reacts to a change of [items]: what it has done when it
    returns.  [handleItemsChanged] is not awaited, so [previousItems] is
    replaced as soon as that call reaches its first [await]. *)
Definition itemsEffect (st : State) : State :=
  match viewport st, items p with
  | Some _, Some (first :: rest) =>
      let its := first :: rest in
      let countDelta := zlength its - zlength (previousItems st) in
      let headChanged := identityChanged (head (previousItems st)) first in
      let tailChanged :=
        identityChanged (last (previousItems st)) (List.last its first) in
      let st :=
        step_state (handleItemsChanged st countDelta headChanged tailChanged) in
      set_previousItems its st
  | _, _ => st
  end.

End Component.

Arguments Props : clear implicits.
Arguments State : clear implicits.
Arguments Step : clear implicits.

(** * The numeric functions on doubles

    The functions of the script that add and compare pixel quantities,
    embedded on IEEE 754 binary64 numbers, as JavaScript computes them.
    Indices and counts stay integers.  On integer pixel quantities these
    functions and the ones above compute the same; they part where a
    quantity has a fraction. *)

Module Binary64.

Import PrimFloat.

(** A number is falsy when it is [0], [-0] or [NaN]. *)
Definition falsy (v : float) : bool := is_zero v || is_nan v.

(** [x || d] on an optional number. *)
Definition js_or (o : option float) (d : float) : float :=
  match o with
  | Some v => if falsy v then d else v
  | None => d
  end.

(** What the height lookup reads: [defaultHeight], the entries of
    [heightMap] that are set, and [heightMap.length]. *)
Record Heights : Type := mkHeights {
  defaultHeight : float;
  heightMap : gmap Z float;
  heightMapLength : Z
}.

(** What the range calculation reads of the viewport. *)
Record View : Type := mkView { scrollTop : float; clientHeight : float }.

Definition getItemHeight (h : Heights) (index : Z) : float :=
  js_or (heightMap h !! index) (defaultHeight h).

Fixpoint sum_loop (h : Heights) (n : nat) (i : Z) (sum : float) : float :=
  match n with
  | O => sum
  | S n' => sum_loop h n' (i + 1) (sum + getItemHeight h i)%float
  end.

Definition calculateHeightSum (h : Heights) (startIndex endIndex : Z) : float :=
  sum_loop h (Z.to_nat (endIndex - startIndex)) startIndex 0%float.

(** The two paddings [updateOffsets] computes for a render range. *)
Definition updateOffsets (h : Heights) (range : Range) : float * float :=
  (calculateHeightSum h 0 (r_start range),
   calculateHeightSum h (r_end range) (heightMapLength h)).

(** The loop of [calculateVisibleRange]; [rows] are the rendered rows by
    their [clientHeight], [rangeStart] is [renderRange.start]. *)
Fixpoint range_loop (h : Heights) (renderDistance : float)
    (rows : option (list float)) (rangeStart : Z) (count : Z)
    (scrollTop viewBottom : float) (n : nat)
    (i renderStart visibleStart visibleEnd : Z) (accumulatedHeight : float)
    : VisibleRange :=
  match n with
  | O =>
      mkVisibleRange
        (if renderStart =? -1 then count - 1 else renderStart)
        count
        (if visibleStart =? -1 then count - 1 else visibleStart)
        (if visibleEnd =? -1 then count else visibleEnd)
  | S n' =>
      let rowHeight :=
        match rows with
        | Some rs => nth_z rs (i - rangeStart)
        | None => None
        end in
      let accumulatedHeight :=
        (accumulatedHeight + js_or rowHeight (getItemHeight h i))%float in
      let renderStart :=
        if (renderStart =? -1)
           && ((scrollTop - renderDistance)%float <=? accumulatedHeight)%float
        then i else renderStart in
      let visibleStart :=
        if (visibleStart =? -1)
           && ((scrollTop + 1)%float <=? accumulatedHeight)%float
        then i else visibleStart in
      let visibleEnd :=
        if (visibleEnd =? -1) && (viewBottom <? accumulatedHeight)%float
        then i + 1 else visibleEnd in
      if ((viewBottom + renderDistance)%float <? accumulatedHeight)%float
      then mkVisibleRange renderStart (i + 1) visibleStart visibleEnd
      else
        range_loop h renderDistance rows rangeStart count scrollTop viewBottom
          n' (i + 1) renderStart visibleStart visibleEnd accumulatedHeight
  end.

(** [calculateVisibleRange] for a list of [count] items. *)
Definition calculateVisibleRange (h : Heights) (renderDistance : float)
    (rows : option (list float)) (rangeStart : Z) (count : nat)
    (viewport : option View) : VisibleRange :=
  match count, viewport with
  | S _, Some v =>
      let viewBottom := (scrollTop v + clientHeight v)%float in
      range_loop h renderDistance rows rangeStart (Z.of_nat count)
        (scrollTop v) viewBottom count 0 (-1) (-1) (-1) 0%float
  | _, _ => mkVisibleRange 0 0 0 0
  end.

End Binary64.

(** * Properties *)

(** ** Sparse arrays *)

Lemma get_new n i : JsArray.get (JsArray.new n) i = None.
Proof. apply lookup_empty. Qed.

Lemma get_set_eq a i v : JsArray.get (JsArray.set a i v) i = Some v.
Proof. apply lookup_insert_eq. Qed.

Lemma get_set_ne a i j v :
  i ≠ j → JsArray.get (JsArray.set a i v) j = JsArray.get a j.
Proof. intros Hne. by apply lookup_insert_ne. Qed.

Lemma len_set_inside a i v :
  i < JsArray.len a → JsArray.len (JsArray.set a i v) = JsArray.len a.
Proof.
  intros Hlt. unfold JsArray.set; simpl.
  destruct (0 <=? i) eqn:E1; simpl; [|done].
  destruct (JsArray.len a <=? i) eqn:E2; [|done]. lia.
Qed.

(** ** Height sums and offsets *)

Section HeightSums.

Context {T : Type} (p : Props T).
Implicit Types st : State T.

(** The sum of the resolved heights of the indices [a], ..., [b - 1],
    written as a sum over the list of those indices. *)
Definition sumRange st (a b : Z) : Z :=
  foldr Z.add 0 (getItemHeight p st <$> seqZ a (b - a)).

Lemma sum_loop_acc st n i s :
  sum_loop p st n i s = s + sum_loop p st n i 0.
Proof.
  revert i s. induction n as [|n IH]; intros i s; simpl; [lia|].
  rewrite (IH _ (s + _)), (IH _ (0 + _)). lia.
Qed.

Lemma sum_loop_sumRange st n i :
  sum_loop p st n i 0 = sumRange st i (i + Z.of_nat n).
Proof.
  unfold sumRange. revert i. induction n as [|n IH]; intros i.
  - simpl. by rewrite seqZ_nil by lia.
  - cbn [sum_loop]. rewrite sum_loop_acc, IH.
    rewrite (seqZ_cons i) by lia. cbn [fmap list_fmap foldr].
    replace (i + 1 + Z.of_nat n - (i + 1)) with (Z.pred (i + Z.of_nat (S n) - i)) by lia.
    replace (Z.succ i) with (i + 1) by lia. lia.
Qed.

Lemma calculateHeightSum_sumRange st a b :
  calculateHeightSum p st a b = sumRange st a b.
Proof.
  unfold calculateHeightSum. rewrite sum_loop_sumRange.
  destruct (decide (a ≤ b)) as [Hle|Hgt].
  - by rewrite Z2Nat.id, Zplus_minus by lia.
  - unfold sumRange. replace (Z.to_nat (b - a)) with O by lia.
    by rewrite !seqZ_nil by lia.
Qed.

Lemma sumRange_split st a b c :
  a ≤ b → b ≤ c → sumRange st a c = sumRange st a b + sumRange st b c.
Proof.
  intros Hab Hbc. unfold sumRange.
  replace (c - a) with ((b - a) + (c - b)) by lia.
  rewrite seqZ_app by lia. rewrite fmap_app, foldr_app.
  replace (a + (b - a)) with b by lia.
  generalize (getItemHeight p st <$> seqZ a (b - a)) as l.
  generalize (foldr Z.add 0 (getItemHeight p st <$> seqZ b (c - b))) as z.
  intros z l. induction l as [|x l IH]; simpl; lia.
Qed.

Lemma getItemHeight_updateOffsets st i :
  getItemHeight p (updateOffsets p st) i = getItemHeight p st i.
Proof. reflexivity. Qed.

Lemma sumRange_updateOffsets st a b :
  sumRange (updateOffsets p st) a b = sumRange st a b.
Proof. reflexivity. Qed.

(** C2, as the code has it: once [updateOffsets] has run on a height map as
    long as the item list and a render range with [0 ≤ start ≤ end ≤ length],
    [offset.top] is what [calculateHeightSum] gives over [[0, start)] and
    [offset.bottom] what it gives over [[end, length)]; and, the heights
    being integers, the two together with the height sum over the render
    range give the height sum over all items. *)
Theorem updateOffsets_partition st its :
  items p = Some its →
  JsArray.len (heightMap st) = zlength its →
  0 ≤ r_start (renderRange st) →
  r_start (renderRange st) ≤ r_end (renderRange st) →
  r_end (renderRange st) ≤ zlength its →
  let st' := updateOffsets p st in
  let range := renderRange st' in
  top (offset st') = calculateHeightSum p st' 0 (r_start range)
  ∧ bottom (offset st')
    = calculateHeightSum p st' (r_end range) (zlength its)
  ∧ top (offset st') + calculateHeightSum p st' (r_start range) (r_end range)
      + bottom (offset st')
    = sumRange st' 0 (zlength its).
Proof.
  intros Hitems Hlen H0 Hse Hel st' range.
  assert (Htop : top (offset st')
                 = calculateHeightSum p st' 0 (r_start range)).
  { subst st' range. cbn [offset updateOffsets set_offset top renderRange].
    by rewrite !calculateHeightSum_sumRange. }
  assert (Hbot : bottom (offset st')
                 = calculateHeightSum p st' (r_end range) (zlength its)).
  { subst st' range. cbn [offset updateOffsets set_offset bottom renderRange].
    by rewrite !calculateHeightSum_sumRange, Hlen. }
  split; [done|]. split; [done|].
  rewrite Htop, Hbot, !calculateHeightSum_sumRange.
  subst st' range. cbn [renderRange updateOffsets set_offset].
  rewrite (sumRange_split _ 0 (r_start (renderRange st)) (zlength its)) by lia.
  rewrite (sumRange_split _ (r_start (renderRange st))
             (r_end (renderRange st)) (zlength its)) by lia.
  lia.
Qed.

End HeightSums.

(** ** Range calculation *)

Section RangeCalculation.

Context {T : Type} (p : Props T).
Implicit Types st : State T.

(** The four boundaries are ordered and lie within the item list. *)
Definition ordered_within (r : VisibleRange) (count : Z) : Prop :=
  0 ≤ renderStart r
  ∧ renderStart r ≤ visibleStart r
  ∧ visibleStart r ≤ visibleEnd r
  ∧ visibleEnd r ≤ renderEnd r
  ∧ renderEnd r ≤ count.

(** What the loop of [calculateVisibleRange] maintains before iteration
    [i]: a boundary is either still [-1] or was found among the indices
    below [i], and a later boundary is only found once the earlier one
    is. *)
Definition loop_inv (i rs vs ve : Z) : Prop :=
  (rs = -1 ∨ 0 ≤ rs < i)
  ∧ (vs = -1 ∨ 0 ≤ vs < i)
  ∧ (ve = -1 ∨ 1 ≤ ve ≤ i)
  ∧ (vs ≠ -1 → rs ≠ -1 ∧ rs ≤ vs)
  ∧ (ve ≠ -1 → vs ≠ -1 ∧ vs < ve).

Lemma range_loop_ordered st count scrollTop viewBottom n i rs vs ve acc :
  0 ≤ renderDistance p →
  scrollTop ≤ viewBottom →
  0 < count →
  0 ≤ i →
  count = i + Z.of_nat n →
  loop_inv i rs vs ve →
  ordered_within
    (range_loop p st count scrollTop viewBottom n i rs vs ve acc) count.
Proof.
  intros Hrd Hvb Hcount. revert i rs vs ve acc.
  induction n as [|n IH]; intros i rs vs ve acc Hi Hn Hinv.
  - unfold loop_inv in Hinv. unfold ordered_within. cbn.
    repeat case_match; lia.
  - cbn [range_loop].
    set (acc' := acc + js_or _ _).
    destruct (viewBottom + renderDistance p <? acc') eqn:Hret.
    + unfold loop_inv in Hinv. unfold ordered_within. cbn.
      apply Z.ltb_lt in Hret.
      repeat case_match; lia.
    + apply IH; [lia | lia |].
      unfold loop_inv in *. repeat case_match; lia.
Qed.

(** Whenever there is a viewport and an item, the calculated render range
    is not empty: [renderStart < renderEnd]. *)
Lemma range_loop_nonempty st count scrollTop viewBottom n i rs vs ve acc :
  0 < count →
  0 ≤ i →
  count = i + Z.of_nat n →
  (rs = -1 ∨ 0 ≤ rs < i) →
  let r := range_loop p st count scrollTop viewBottom n i rs vs ve acc in
  renderStart r < renderEnd r.
Proof.
  intros Hcount. revert i rs vs ve acc.
  induction n as [|n IH]; intros i rs vs ve acc Hi Hn Hrs.
  - cbn. case_match; lia.
  - cbn [range_loop].
    set (acc' := acc + js_or _ _).
    destruct (viewBottom + renderDistance p <? acc') eqn:Hret.
    + cbn. case_match; lia.
    + apply IH; [lia | lia |]. case_match; lia.
Qed.

(** On integer pixel quantities: for every item list, every non-negative
    scroll offset, viewport height and render distance, and every
    assignment of heights (measured, default and live row heights),
    [calculateVisibleRange] returns boundaries with
    [0 ≤ renderStart ≤ visibleStart ≤ visibleEnd ≤ renderEnd ≤ items.length].
    With a fraction in the scroll offset this fails: see the pass at
    scroll offset 39.5 among the worked states. *)
Theorem calculateVisibleRange_ordered st its :
  items p = Some its →
  0 ≤ renderDistance p →
  match viewport st with
  | Some v => 0 ≤ scrollTop v ∧ 0 ≤ clientHeight v
  | None => True
  end →
  ∃ r, calculateVisibleRange p st = Some r ∧ ordered_within r (zlength its).
Proof.
  intros Hitems Hrd Hview. unfold calculateVisibleRange. rewrite Hitems.
  assert (H0 : ordered_within (mkVisibleRange 0 0 0 0) (zlength its)).
  { unfold ordered_within, zlength. cbn. lia. }
  destruct (zlength its =? 0) eqn:Hcount; [by destruct (viewport st); eauto|].
  destruct (viewport st) as [v|]; [|by eauto].
  eexists; split; [reflexivity|].
  apply Z.eqb_neq in Hcount.
  apply range_loop_ordered; unfold zlength in *; try lia.
  unfold loop_inv. lia.
Qed.

End RangeCalculation.

(** ** Reconciliation of the height map *)

Section HeightMapReconciliation.

Context {T : Type} (p : Props T).
Implicit Types st : State T.

(** What [shift_loop] leaves at key [j]: within the window written by the
    [n] iterations from [i] a set entry of [heights] lands [countDelta]
    higher, everything else is as it was in [shifted]. *)
Lemma shift_loop_get heights countDelta n i shifted j :
  JsArray.get (shift_loop heights countDelta n i shifted) j =
    if decide (i + countDelta ≤ j < i + Z.of_nat n + countDelta)
    then match JsArray.get heights (j - countDelta) with
         | Some h => Some h
         | None => JsArray.get shifted j
         end
    else JsArray.get shifted j.
Proof.
  revert i shifted. induction n as [|n IH]; intros i shifted.
  - cbn [shift_loop]. case_decide; [lia | done].
  - cbn [shift_loop]. rewrite IH. clear IH.
    destruct (decide (j = i + countDelta)) as [->|Hne].
    + replace (i + countDelta - countDelta) with i by lia.
      rewrite decide_False by lia. rewrite decide_True by lia.
      destruct (JsArray.get heights i); [apply get_set_eq | done].
    + assert (Hsame :
        JsArray.get
          match JsArray.get heights i with
          | Some h => JsArray.set shifted (i + countDelta) h
          | None => shifted
          end j = JsArray.get shifted j).
      { destruct (JsArray.get heights i); [|done].
        apply get_set_ne. lia. }
      rewrite Hsame.
      repeat case_decide; try lia; done.
Qed.

Lemma shift_loop_len heights countDelta n i shifted :
  i + Z.of_nat n + countDelta ≤ JsArray.len shifted →
  JsArray.len (shift_loop heights countDelta n i shifted)
    = JsArray.len shifted.
Proof.
  revert i shifted. induction n as [|n IH]; intros i shifted Hle; [done|].
  cbn [shift_loop].
  destruct (JsArray.get heights i) as [h|].
  - rewrite IH; rewrite len_set_inside; lia.
  - apply IH. lia.
Qed.

(** C3: on a change classified as a prepend of [k > 0] items
    ([headChanged], not [tailChanged], [countDelta = k]) to a previous list
    of [N] items, [updateHeightMap] yields a height map in which every
    entry set at an index [i] of the previous items is found unchanged at
    [i + k], in which nothing else is set, and whose length is the new item
    count. *)
Theorem updateHeightMap_prepend st its k :
  items p = Some its →
  0 < k →
  zlength its = zlength (previousItems st) + k →
  ∃ st',
    updateHeightMap p st k true false = Some st'
    ∧ (∀ i h, 0 ≤ i < zlength (previousItems st) →
         JsArray.get (heightMap st) i = Some h →
         JsArray.get (heightMap st') (i + k) = Some h)
    ∧ (∀ j h, JsArray.get (heightMap st') j = Some h →
         ∃ i, 0 ≤ i < zlength (previousItems st) ∧ j = i + k
              ∧ JsArray.get (heightMap st) i = Some h)
    ∧ JsArray.len (heightMap st') = zlength its.
Proof.
  intros Hitems Hk Hcount. unfold updateHeightMap. rewrite Hitems.
  cbn [andb negb]. apply Z.ltb_lt in Hk as Hkb. rewrite Hkb.
  eexists; split; [reflexivity|]. cbn [heightMap set_heightMap].
  split; [|split].
  - intros i h Hi Hget. rewrite shift_loop_get.
    unfold zlength in *. rewrite decide_True by lia.
    replace (i + k - k) with i by lia. by rewrite Hget.
  - intros j h. rewrite shift_loop_get, get_new.
    unfold zlength in *. case_decide as Hj; [|done].
    destruct (JsArray.get (heightMap st) (j - k)) as [h'|] eqn:Hget; [|done].
    intros [= ->]. exists (j - k). split; [lia|]. split; [lia | done].
  - rewrite shift_loop_len; [done|]. cbn. unfold zlength in *. lia.
Qed.

(** C4, as the code has it: on a change classified as a full replacement
    ([headChanged] and [tailChanged]) of a non-empty previous list,
    [updateHeightMap] installs a height map of the new length with every
    entry unset and resets the render range to [{start: 0, end: 0}], so
    that [isInitialized] is false and [handleItemsChanged] goes on with
    [initializeAt] when there are items; the locked heights, their timer
    ids and the pending timers are left as they were. *)
Theorem updateHeightMap_full_replacement st its countDelta :
  items p = Some its →
  previousItems st ≠ [] →
  ∃ st',
    updateHeightMap p st countDelta true true = Some st'
    ∧ JsArray.len (heightMap st') = zlength its
    ∧ (∀ i, JsArray.get (heightMap st') i = None)
    ∧ renderRange st' = mkRange 0 0
    ∧ isInitialized st' = false
    ∧ lockedHeights st' = lockedHeights st
    ∧ heightUnlockTimeouts st' = heightUnlockTimeouts st
    ∧ timers st' = timers st
    ∧ (its ≠ [] →
       handleItemsChanged p st countDelta true true =
         await_call
           (initializeAt p st'
              (if stickToBottom p then zlength its - 1
               else js_or (startIndex p) 0))).
Proof.
  intros Hitems Hprev.
  assert (Hlen : (0 <? zlength (previousItems st)) = true).
  { apply Z.ltb_lt. unfold zlength. destruct (previousItems st); [done|].
    cbn [length]. lia. }
  assert (Hupd : updateHeightMap p st countDelta true true =
    Some (set_renderRange (mkRange 0 0)
            (set_heightMap (JsArray.new (zlength its)) st))).
  { unfold updateHeightMap. by rewrite Hitems, Hlen. }
  eexists; split; [exact Hupd|].
  repeat split; try reflexivity.
  intros Hne. unfold handleItemsChanged. rewrite Hupd, Hitems.
  assert (Hpos : (0 <? zlength its) = true).
  { apply Z.ltb_lt. unfold zlength. destruct its; [done|]. cbn [length]. lia. }
  by rewrite Hpos.
Qed.

End HeightMapReconciliation.

(** ** Height lookup and height locks *)

Section HeightLookup.

Context {T : Type} (p : Props T).
Implicit Types st : State T.

(** The lookup of the height model as the specification words it: the
    locked height when a lock is present, else the measured height when one
    is stored, else the default.  (A lock that has expired is no longer
    present: its timer removes it.) *)
Definition spec_HeightModel_get st (i : Z) : Z :=
  match JsArray.get (lockedHeights st) i with
  | Some locked => locked
  | None =>
      match JsArray.get (heightMap st) i with
      | Some measured => measured
      | None => defaultHeight p
      end
  end.

(** C6, as the code has it: [getItemHeight] returns the measured height
    when one is stored and is not [0], otherwise the default height; the
    locked heights and their timers play no part in it.  The locked height
    is what the template gives a rendered row as its CSS height. *)
Theorem getItemHeight_measured_else_default st i :
  getItemHeight p st i =
    match JsArray.get (heightMap st) i with
    | Some measured => if measured =? 0 then defaultHeight p else measured
    | None => defaultHeight p
    end
  ∧ (∀ locks timeouts,
       getItemHeight p
         (set_lockedHeights locks (set_heightUnlockTimeouts timeouts st)) i
       = getItemHeight p st i)
  ∧ rowStyleHeight st i =
      match JsArray.get (lockedHeights st) i with
      | Some locked => if locked =? 0 then None else Some locked
      | None => None
      end.
Proof.
  split; [reflexivity|]. split; [reflexivity|].
  unfold rowStyleHeight, truthy.
  destruct (JsArray.get (lockedHeights st) i) as [h|]; [|done].
  by destruct (h =? 0).
Qed.

(** Where no lock is present and the measured height is not [0], the code
    and the specification's lookup agree. *)
Lemma getItemHeight_agrees_unlocked st i :
  JsArray.get (lockedHeights st) i = None →
  JsArray.get (heightMap st) i ≠ Some 0 →
  getItemHeight p st i = spec_HeightModel_get st i.
Proof.
  intros Hlock Hz. unfold getItemHeight, spec_HeightModel_get, js_or.
  rewrite Hlock. destruct (JsArray.get (heightMap st) i) as [h|]; [|done].
  destruct (h =? 0) eqn:E; [|done]. apply Z.eqb_eq in E. by subst.
Qed.

(** C9: an index whose stored measured height is exactly [0] resolves to
    the default height, and so adds the default height to every height sum
    over a range that holds it, and to the offset on its side of the render
    range. *)
Theorem getItemHeight_zero_is_default st i :
  JsArray.get (heightMap st) i = Some 0 →
  getItemHeight p st i = defaultHeight p
  ∧ (∀ a b, a ≤ i < b →
       calculateHeightSum p st a b =
         calculateHeightSum p st a i + defaultHeight p
         + calculateHeightSum p st (i + 1) b)
  ∧ (0 ≤ i < r_start (renderRange st) →
       top (offset (updateOffsets p st)) =
         calculateHeightSum p st 0 i + defaultHeight p
         + calculateHeightSum p st (i + 1) (r_start (renderRange st)))
  ∧ (r_end (renderRange st) ≤ i < JsArray.len (heightMap st) →
       bottom (offset (updateOffsets p st)) =
         calculateHeightSum p st (r_end (renderRange st)) i + defaultHeight p
         + calculateHeightSum p st (i + 1) (JsArray.len (heightMap st))).
Proof.
  intros Hzero.
  assert (Hget : getItemHeight p st i = defaultHeight p).
  { unfold getItemHeight. by rewrite Hzero. }
  assert (Hsum : ∀ a b, a ≤ i < b →
    calculateHeightSum p st a b =
      calculateHeightSum p st a i + defaultHeight p
      + calculateHeightSum p st (i + 1) b).
  { intros a b Hab. rewrite !calculateHeightSum_sumRange.
    rewrite (sumRange_split p st a i b) by lia.
    rewrite (sumRange_split p st i (i + 1) b) by lia.
    assert (Hone : sumRange p st i (i + 1) = defaultHeight p).
    { unfold sumRange. rewrite seqZ_cons by lia. rewrite seqZ_nil by lia.
      cbn [fmap list_fmap foldr]. rewrite Hget. lia. }
    lia. }
  split; [done|]. split; [done|]. split; intros Hi; cbn; by apply Hsum.
Qed.

(** A lock leaves everything but the locked heights and the timers alone. *)
Lemma lockRowHeight_frame st i :
  let st' := lockRowHeight st i in
  viewport st' = viewport st
  ∧ visibleRowElements st' = visibleRowElements st
  ∧ previousItems st' = previousItems st
  ∧ heightMap st' = heightMap st
  ∧ renderRange st' = renderRange st
  ∧ visibleRange st' = visibleRange st
  ∧ offset st' = offset st
  ∧ previousDistance st' = previousDistance st
  ∧ isRecalculating st' = isRecalculating st
  ∧ lastScrollDirection st' = lastScrollDirection st
  ∧ lastJumpToIndex st' = lastJumpToIndex st
  ∧ skipNextScrollEvent st' = skipNextScrollEvent st.
Proof.
  unfold lockRowHeight.
  destruct (JsArray.get (heightMap st) i) as [h|]; [|done].
  destruct (h =? 0); [done|].
  destruct (JsArray.get (heightUnlockTimeouts _) i); done.
Qed.

(** With a cached height that is not [0], the lock copies it. *)
Lemma lockRowHeight_locks st i h :
  JsArray.get (heightMap st) i = Some h →
  h ≠ 0 →
  JsArray.get (lockedHeights (lockRowHeight st i)) i = Some h.
Proof.
  intros Hget Hh. unfold lockRowHeight. rewrite Hget.
  apply Z.eqb_neq in Hh. rewrite Hh.
  destruct (JsArray.get (heightUnlockTimeouts _) i); cbn; apply get_set_eq.
Qed.

Lemma lockRowHeight_falsy st i :
  truthy (JsArray.get (heightMap st) i) = false → lockRowHeight st i = st.
Proof.
  unfold lockRowHeight, truthy.
  destruct (JsArray.get (heightMap st) i) as [h|]; [|done].
  by destruct (h =? 0).
Qed.

Lemma lockRowHeight_truthy st i :
  truthy (JsArray.get (heightMap st) i) = true →
  JsArray.get (lockedHeights (lockRowHeight st i)) i
    = JsArray.get (heightMap st) i.
Proof.
  unfold truthy.
  destruct (JsArray.get (heightMap st) i) as [h|] eqn:Hget; [|done].
  intros Hh. apply lockRowHeight_locks; [done|].
  apply Z.eqb_neq. by destruct (h =? 0).
Qed.

(** C10: without a cached measured height at [i] ([heightMap[i]] unset or
    [0]) [lockRowHeight(i)] changes nothing at all: no locked height is
    written, no timer is scheduled and none is cancelled. *)
Theorem lockRowHeight_unmeasured_noop st i :
  JsArray.get (heightMap st) i = None
  ∨ JsArray.get (heightMap st) i = Some 0 →
  lockRowHeight st i = st
  ∧ lockedHeights (lockRowHeight st i) = lockedHeights st
  ∧ heightUnlockTimeouts (lockRowHeight st i) = heightUnlockTimeouts st
  ∧ timers (lockRowHeight st i) = timers st
  ∧ nextTimerId (lockRowHeight st i) = nextTimerId st.
Proof.
  intros Hunset.
  assert (Hsame : lockRowHeight st i = st).
  { apply lockRowHeight_falsy. by destruct Hunset as [-> | ->]. }
  by rewrite Hsame.
Qed.

End HeightLookup.

(** ** Recalculation, jumps and the load-more trigger *)

Section Passes.

Context {T : Type} (scrollTo : Viewport → Z → Viewport) (p : Props T).
Implicit Types st : State T.

Lemma range_loop_ext st1 st2 count top_ bottom_ n i rs vs ve acc :
  heightMap st1 = heightMap st2 →
  renderRange st1 = renderRange st2 →
  visibleRowElements st1 = visibleRowElements st2 →
  range_loop p st1 count top_ bottom_ n i rs vs ve acc
    = range_loop p st2 count top_ bottom_ n i rs vs ve acc.
Proof.
  intros Hh Hr Hv. revert i rs vs ve acc.
  induction n as [|n IH]; intros i rs vs ve acc; [done|].
  cbn [range_loop]. unfold rowClientHeight, getItemHeight.
  rewrite Hh, Hr, Hv. case_match; [done|]. apply IH.
Qed.

Lemma calculateVisibleRange_ext st1 st2 :
  viewport st1 = viewport st2 →
  heightMap st1 = heightMap st2 →
  renderRange st1 = renderRange st2 →
  visibleRowElements st1 = visibleRowElements st2 →
  calculateVisibleRange p st1 = calculateVisibleRange p st2.
Proof.
  intros Hvp Hh Hr Hv. unfold calculateVisibleRange. rewrite Hvp.
  repeat case_match; try done.
  f_equal. by apply range_loop_ext.
Qed.

Lemma scrollToBottom_renderRange st :
  renderRange (scrollToBottom scrollTo st) = renderRange st.
Proof. unfold scrollToBottom. by destruct (viewport st). Qed.

Lemma recalculateRanges_finish_renderRange st bottomDistance vs ve :
  renderRange (recalculateRanges_finish scrollTo p st bottomDistance vs ve)
    = renderRange st.
Proof.
  unfold recalculateRanges_finish, debouncedLoadMore.
  repeat case_match; cbn; rewrite ?scrollToBottom_renderRange; done.
Qed.

(** The guard of [recalculateRanges], for any calculated ranges whatever:
    an empty or inverted render range for a non-empty list is dropped, the
    pass returns, and the stored render range stays. *)
Lemma recalculateRanges_apply_degenerate st its oldStart oldEnd distance r :
  items p = Some its →
  its ≠ [] →
  renderEnd r ≤ renderStart r →
  ∃ st',
    recalculateRanges_apply scrollTo p st oldStart oldEnd distance r
      = Returned st'
    ∧ renderRange st' = renderRange st.
Proof.
  intros Hitems Hne Hdeg. unfold recalculateRanges_apply.
  apply Z.leb_le in Hdeg. rewrite Hdeg, Hitems.
  assert (Hpos : (0 <? zlength its) = true).
  { apply Z.ltb_lt. unfold zlength. destruct its; [done|]. cbn [length]. lia. }
  rewrite Hpos. case_match.
  - by eexists.
  - eexists; split; [done|]. apply recalculateRanges_finish_renderRange.
Qed.

(** C5: in an initialized state with a non-empty item list, whenever the
    range calculation yields [renderEnd ≤ renderStart], the pass of
    [recalculateRanges] returns with the stored render range equal to its
    previous value; and whatever ranges reach the guard of the pass, ranges
    with [renderEnd ≤ renderStart] are not applied. *)
Theorem recalculateRanges_keeps_range_on_degenerate st its :
  items p = Some its →
  its ≠ [] →
  isInitialized st = true →
  (∀ r, calculateVisibleRange p st = Some r →
        renderEnd r ≤ renderStart r →
        ∃ st',
          recalculateRanges scrollTo p st = Returned st'
          ∧ renderRange st' = renderRange st)
  ∧ (∀ r oldStart oldEnd distance,
        renderEnd r ≤ renderStart r →
        ∃ st',
          recalculateRanges_apply scrollTo p st oldStart oldEnd distance r
            = Returned st'
          ∧ renderRange st' = renderRange st).
Proof.
  intros Hitems Hne Hinit. split.
  - intros r Hcalc Hdeg. unfold recalculateRanges.
    destruct (viewport st) as [v|] eqn:Hv; [|by eexists].
    destruct (visibleRowElements st) as [rows|] eqn:Hrows; [|by eexists].
    rewrite Hinit. cbn [negb orb].
    destruct (isRecalculating st); [by eexists|].
    rewrite (calculateVisibleRange_ext _ st) by done. rewrite Hcalc.
    set (st1 := set_isRecalculating true st).
    destruct (recalculateRanges_apply_degenerate st1 its
                (r_start (renderRange st1)) (r_end (renderRange st1))
                (getDistanceFromBottom st1) r Hitems Hne Hdeg)
      as (st' & Heq & Hrange).
    exists st'. split; [exact Heq|]. by rewrite Hrange.
  - intros r oldStart oldEnd distance Hdeg.
    by apply (recalculateRanges_apply_degenerate st its).
Qed.

(** With a viewport and at least one item the calculation never yields an
    empty or inverted render range; the guard above is a safety net. *)
Lemma calculateVisibleRange_nonempty st its v r :
  items p = Some its →
  its ≠ [] →
  viewport st = Some v →
  calculateVisibleRange p st = Some r →
  renderStart r < renderEnd r.
Proof.
  intros Hitems Hne Hv. unfold calculateVisibleRange. rewrite Hitems, Hv.
  assert (Hpos : 0 < zlength its).
  { unfold zlength. destruct its; [done|]. cbn [length]. lia. }
  destruct (zlength its =? 0) eqn:E; [apply Z.eqb_eq in E; lia|].
  intros [= <-]. apply range_loop_nonempty; unfold zlength in *; lia.
Qed.

(** C8: [shouldTriggerLoadMore] is true exactly when there are a viewport
    and a fetch callback and either the content is not taller than the
    viewport, or stick-to-bottom is on and the scroll offset is below 300,
    or stick-to-bottom is off and the distance from the bottom is at least
    0 and below 300. *)
Theorem shouldTriggerLoadMore_iff st :
  shouldTriggerLoadMore p st = true ↔
  ∃ v, viewport st = Some v
       ∧ onloadmore p = true
       ∧ (scrollHeight v ≤ clientHeight v
          ∨ (stickToBottom p = true ∧ scrollTop v < 300)
          ∨ (stickToBottom p = false
             ∧ 0 ≤ scrollHeight v - scrollTop v - clientHeight v
             ∧ scrollHeight v - scrollTop v - clientHeight v < 300)).
Proof.
  unfold shouldTriggerLoadMore, getDistanceFromBottom, LOAD_MORE_THRESHOLD.
  destruct (viewport st) as [v|]; [|split; [done | by intros (? & ? & _)]].
  destruct (onloadmore p); cbn [negb];
    [|split; [done | by intros (? & _ & ? & _)]].
  split.
  - intros H. exists v. split; [done|]. split; [done|].
    destruct (scrollHeight v <=? clientHeight v) eqn:E1; [left; lia|].
    destruct (stickToBottom p); [right; left; lia|].
    right; right. lia.
  - intros (v' & [= <-] & _ & Hcases).
    destruct (scrollHeight v <=? clientHeight v) eqn:E1; [done|].
    destruct (stickToBottom p); destruct Hcases as [?|[[? ?]|(? & ? & ?)]];
      try done; lia.
Qed.

End Passes.

(** ** Jumping to an index *)

Section Jump.

Context {T : Type} (p : Props T).
Implicit Types st : State T.

Lemma lockIfMeasured_frame st i :
  let st' := lockIfMeasured st i in
  viewport st' = viewport st
  ∧ heightMap st' = heightMap st
  ∧ renderRange st' = renderRange st
  ∧ lastScrollDirection st' = lastScrollDirection st
  ∧ lastJumpToIndex st' = lastJumpToIndex st
  ∧ skipNextScrollEvent st' = skipNextScrollEvent st.
Proof.
  unfold lockIfMeasured.
  destruct (JsArray.get (heightMap st) i); [|done].
  pose proof (lockRowHeight_frame st i) as H. cbv zeta in H.
  destruct H as (Hvp & _ & _ & Hhm & Hrr & _ & _ & _ & _ & Hdir & Hjump
                 & Hskip).
  done.
Qed.

Lemma lockIfMeasured_falsy st i :
  truthy (JsArray.get (heightMap st) i) = false → lockIfMeasured st i = st.
Proof.
  intros H. unfold lockIfMeasured.
  destruct (JsArray.get (heightMap st) i) eqn:E; [|done].
  apply lockRowHeight_falsy. by rewrite E.
Qed.

Lemma lockIfMeasured_truthy st i :
  truthy (JsArray.get (heightMap st) i) = true →
  JsArray.get (lockedHeights (lockIfMeasured st i)) i
    = JsArray.get (heightMap st) i.
Proof.
  intros H. unfold lockIfMeasured.
  destruct (JsArray.get (heightMap st) i) eqn:E; [|done].
  rewrite <- E. apply lockRowHeight_truthy. by rewrite E.
Qed.

(** [initializeAt] without a viewport returns at once. *)
Lemma initializeAt_no_viewport st startingAt :
  viewport st = None → initializeAt p st startingAt = Returned st.
Proof. intros H. unfold initializeAt. by rewrite H. Qed.

(** [initializeAt] at an index of the list, with a viewport: the render
    range is the single row [startingAt] and the function waits for that
    row. *)
Lemma initializeAt_in_range st its v startingAt :
  items p = Some its →
  viewport st = Some v →
  startingAt < zlength its →
  ∃ st',
    initializeAt p st startingAt
      = Awaiting st' (InitForward startingAt startingAt)
    ∧ renderRange st' = mkRange startingAt (startingAt + 1)
    ∧ lastScrollDirection st' = lastScrollDirection st
    ∧ lastJumpToIndex st' = lastJumpToIndex st
    ∧ skipNextScrollEvent st' = skipNextScrollEvent st
    ∧ (truthy (JsArray.get (heightMap st) startingAt) = true →
       JsArray.get (lockedHeights st') startingAt
         = JsArray.get (heightMap st) startingAt)
    ∧ (truthy (JsArray.get (heightMap st) startingAt) = false →
       lockedHeights st' = lockedHeights st).
Proof.
  intros Hitems Hv Hlt. unfold initializeAt. rewrite Hv, Hitems.
  apply Z.ltb_lt in Hlt. rewrite Hlt.
  set (st1 := set_renderRange _ st).
  pose proof (lockIfMeasured_frame st1 startingAt) as Hf. cbv zeta in Hf.
  destruct Hf as (_ & _ & Hrr & Hdir & Hjump & Hskip).
  eexists. split; [reflexivity|].
  cbn [renderRange set_renderRange lastScrollDirection lastJumpToIndex
       skipNextScrollEvent lockedHeights].
  rewrite Hrr, Hdir, Hjump, Hskip.
  repeat split.
  - intros Ht. by apply (lockIfMeasured_truthy st1).
  - intros Hf. by rewrite (lockIfMeasured_falsy st1).
Qed.

(** C7, as the code has it: [jumpToIndex(i)] returns with the state
    untouched when [items] is absent or [i] is not an index of it.  For an
    index of the list it clears the scroll direction, sets the flag that
    suppresses the next scroll event and records the jump target; it locks
    the height at [i] when a measured height other than [0] is cached there
    (otherwise the locked heights stay as they are); and, when there is a
    viewport, it restarts the render range at the single row [i]
    (otherwise the render range stays as it is). *)
Theorem jumpToIndex_effects st index :
  let st' := jumpToIndex p st index in
  match items p with
  | None => st' = st
  | Some its =>
      if (0 <=? index) && (index <? zlength its) then
        lastScrollDirection st' = None
        ∧ skipNextScrollEvent st' = true
        ∧ lastJumpToIndex st' = Some index
        ∧ (if truthy (JsArray.get (heightMap st) index)
           then JsArray.get (lockedHeights st') index
                = JsArray.get (heightMap st) index
           else lockedHeights st' = lockedHeights st)
        ∧ match viewport st with
          | Some _ => renderRange st' = mkRange index (index + 1)
          | None => renderRange st' = renderRange st
          end
      else st' = st
  end.
Proof.
  cbv zeta. unfold jumpToIndex.
  destruct (items p) as [its|] eqn:Hitems; [|done].
  destruct ((0 <=? index) && (index <? zlength its)) eqn:Hin.
  - apply andb_true_iff in Hin as [H0 Hlt].
    apply Z.leb_le in H0. apply Z.ltb_lt in Hlt.
    replace ((index <? 0) || (zlength its - 1 <? index)) with false
      by (symmetry; apply orb_false_iff; split; apply Z.ltb_ge; lia).
    set (st0 := set_lastJumpToIndex _ _).
    assert (Hhm0 : heightMap st0 = heightMap st) by done.
    pose proof (lockRowHeight_frame st0 index) as Hf. cbv zeta in Hf.
    destruct Hf as (Hvp & _ & _ & Hhm & Hrr & _ & _ & _ & _ & Hdir & Hjump
                    & Hskip).
    set (st1 := lockRowHeight st0 index) in *.
    destruct (viewport st) as [v|] eqn:Hv.
    + destruct (initializeAt_in_range st1 its v index Hitems) as
        (st2 & Heq & Hrr2 & Hdir2 & Hjump2 & Hskip2 & Hlock & Hnolock);
        [by rewrite Hvp | lia |].
      rewrite Heq. cbn [step_state].
      rewrite Hdir2, Hjump2, Hskip2, Hdir, Hjump, Hskip.
      repeat split; [|done].
      rewrite Hhm, Hhm0 in Hlock, Hnolock.
      destruct (truthy (JsArray.get (heightMap st) index)) eqn:Ht.
      * by apply Hlock.
      * rewrite Hnolock by done. subst st1.
        by rewrite lockRowHeight_falsy by (by rewrite Hhm0).
    + rewrite initializeAt_no_viewport by (by rewrite Hvp).
      cbn [step_state]. rewrite Hdir, Hjump, Hskip, Hrr.
      repeat split.
      destruct (truthy (JsArray.get (heightMap st) index)) eqn:Ht.
      * subst st1. rewrite <- Hhm0. apply lockRowHeight_truthy.
        by rewrite Hhm0.
      * subst st1. by rewrite lockRowHeight_falsy by (by rewrite Hhm0).
  - replace ((index <? 0) || (zlength its - 1 <? index)) with true; [done|].
    symmetry. apply andb_false_iff in Hin.
    apply orb_true_iff. destruct Hin as [H|H]; [left|right];
      apply Z.ltb_lt; [apply Z.leb_gt in H | apply Z.ltb_ge in H]; lia.
Qed.

End Jump.

(** ** More on height sums *)

Section MoreHeightSums.

Context {T : Type} (p : Props T).
Implicit Types st : State T.



(** The same on doubles, where the sum is not a product: the additions
    are the same ones in the same order. *)
Lemma sum_loop_unmeasured_on_doubles (h : Binary64.Heights) n i i' acc :
  (∀ j, i ≤ j < i + Z.of_nat n →
        Binary64.getItemHeight h j = Binary64.defaultHeight h) →
  (∀ j, i' ≤ j < i' + Z.of_nat n →
        Binary64.getItemHeight h j = Binary64.defaultHeight h) →
  Binary64.sum_loop h n i acc = Binary64.sum_loop h n i' acc.
Proof.
  revert i i' acc. induction n as [|n IH]; intros i i' acc Hun Hun'; [done|].
  cbn [Binary64.sum_loop].
  rewrite (Hun i), (Hun' i') by lia.
  apply IH; intros j Hj; [apply Hun | apply Hun']; lia.
Qed.

Lemma getItemHeight_nonneg st i :
  0 ≤ defaultHeight p →
  (∀ j h, JsArray.get (heightMap st) j = Some h → 0 ≤ h) →
  0 ≤ getItemHeight p st i.
Proof.
  intros Hd Hm. unfold getItemHeight, js_or.
  destruct (JsArray.get (heightMap st) i) as [h|] eqn:E; [|done].
  destruct (h =? 0); [done|]. by apply (Hm i).
Qed.

Lemma sumRange_nonneg st a b :
  0 ≤ defaultHeight p →
  (∀ j h, JsArray.get (heightMap st) j = Some h → 0 ≤ h) →
  0 ≤ sumRange p st a b.
Proof.
  intros Hd Hm. unfold sumRange.
  induction (seqZ a (b - a)) as [|x l IH]; cbn; [done|].
  pose proof (getItemHeight_nonneg st x Hd Hm). lia.
Qed.

(** With a default height and measured heights that are not negative, a
    height sum is not negative, it can only grow when its range grows, and
    the two paddings set by [updateOffsets] are not negative. *)
Theorem calculateHeightSum_monotone st a b a' b' :
  0 ≤ defaultHeight p →
  (∀ j h, JsArray.get (heightMap st) j = Some h → 0 ≤ h) →
  a' ≤ a →
  b ≤ b' →
  0 ≤ calculateHeightSum p st a b
  ∧ calculateHeightSum p st a b ≤ calculateHeightSum p st a' b'
  ∧ 0 ≤ top (offset (updateOffsets p st))
  ∧ 0 ≤ bottom (offset (updateOffsets p st)).
Proof.
  intros Hd Hm Ha Hb. cbn [offset updateOffsets set_offset top bottom].
  rewrite !calculateHeightSum_sumRange.
  pose proof (sumRange_nonneg st) as Hnn.
  repeat split; try by apply Hnn.
  destruct (decide (a ≤ b)) as [Hab|Hab].
  - rewrite (sumRange_split p st a' a b') by lia.
    rewrite (sumRange_split p st a b b') by lia.
    pose proof (Hnn a' a Hd Hm). pose proof (Hnn b b' Hd Hm). lia.
  - assert (H0 : sumRange p st a b = 0).
    { unfold sumRange. by rewrite seqZ_nil by lia. }
    rewrite H0. by apply Hnn.
Qed.

End MoreHeightSums.

(** ** The rendered items *)

Section RenderedItems.

Context {T : Type} (p : Props T).
Implicit Types st : State T.

Lemma nth_z_take_drop {A : Type} (l : list A) (n m : nat) (k : Z) :
  0 ≤ k →
  nth_z (take n (drop m l)) k =
    if k <? Z.of_nat n then nth_z l (Z.of_nat m + k) else None.
Proof.
  intros Hk. unfold nth_z.
  replace (k <? 0) with false by (symmetry; apply Z.ltb_ge; lia).
  replace (Z.of_nat m + k <? 0) with false by (symmetry; apply Z.ltb_ge; lia).
  destruct (k <? Z.of_nat n) eqn:E.
  - apply Z.ltb_lt in E. rewrite lookup_take_lt by lia.
    rewrite lookup_drop. f_equal. lia.
  - apply Z.ltb_ge in E. apply lookup_take_ge. lia.
Qed.

(** [slice] with bounds that are not negative: position [k] of the result
    holds element [start + k] as long as [start + k] is below [end]. *)
Lemma js_slice_nth {A : Type} (l : list A) (start end_ k : Z) :
  0 ≤ start → 0 ≤ end_ → 0 ≤ k →
  nth_z (js_slice l start end_) k =
    if k <? end_ - start then nth_z l (start + k) else None.
Proof.
  intros Hs He Hk. unfold js_slice.
  replace (start <? 0) with false by (symmetry; apply Z.ltb_ge; lia).
  replace (end_ <? 0) with false by (symmetry; apply Z.ltb_ge; lia).
  rewrite nth_z_take_drop by done.
  assert (Hlen : ∀ i, zlength l ≤ i → nth_z l i = None).
  { intros i Hi. unfold nth_z, zlength in *. case_match; [done|].
    apply lookup_ge_None. lia. }
  destruct (decide (start ≤ zlength l)) as [Hle|Hgt].
  - rewrite (Z.min_l start) by done. rewrite (Z2Nat.id start) by lia.
    destruct (k <? end_ - start) eqn:E1.
    + apply Z.ltb_lt in E1.
      destruct (k <? Z.of_nat (Z.to_nat (Z.min end_ (zlength l) - start)))
        eqn:E2; [done|].
      apply Z.ltb_ge in E2. symmetry. apply Hlen. lia.
    + apply Z.ltb_ge in E1.
      replace (k <? Z.of_nat (Z.to_nat (Z.min end_ (zlength l) - start)))
        with false; [done|].
      symmetry. apply Z.ltb_ge. lia.
  - replace (k <? Z.of_nat (Z.to_nat
               (Z.min end_ (zlength l) - Z.min start (zlength l))))
      with false by (symmetry; apply Z.ltb_ge; lia).
    case_match; [|done]. symmetry. apply Hlen. lia.
Qed.

(** The rendered rows are the items of the render range, in order: row
    [k] shows item [renderRange.start + k], and there is no row for an index
    at or past [renderRange.end] or past the list. *)
Theorem renderItems_rows st its :
  items p = Some its →
  0 ≤ r_start (renderRange st) →
  0 ≤ r_end (renderRange st) →
  ∃ rows,
    renderItems p st = Some rows
    ∧ ∀ k, 0 ≤ k →
        nth_z rows k =
          if k <? r_end (renderRange st) - r_start (renderRange st)
          then nth_z its (r_start (renderRange st) + k)
          else None.
Proof.
  intros Hitems Hs He. unfold renderItems. rewrite Hitems.
  eexists; split; [done|]. intros k Hk. by apply js_slice_nth.
Qed.

(** Putting items in front of a list and moving both bounds up by their
    number selects the same items. *)
Lemma js_slice_prepend {A : Type} (added old : list A) (start end_ : Z) :
  0 ≤ start → 0 ≤ end_ →
  js_slice (added ++ old) (start + zlength added) (end_ + zlength added)
    = js_slice old start end_.
Proof.
  intros Hs He. unfold js_slice, zlength. rewrite length_app.
  replace (start + Z.of_nat (length added) <? 0) with false
    by (symmetry; apply Z.ltb_ge; lia).
  replace (end_ + Z.of_nat (length added) <? 0) with false
    by (symmetry; apply Z.ltb_ge; lia).
  replace (start <? 0) with false by (symmetry; apply Z.ltb_ge; lia).
  replace (end_ <? 0) with false by (symmetry; apply Z.ltb_ge; lia).
  set (la := length added). set (lo := length old).
  replace (Z.to_nat (Z.min (start + Z.of_nat la) (Z.of_nat (la + lo)%nat)))
    with (la + Z.to_nat (Z.min start (Z.of_nat lo)))%nat by lia.
  rewrite drop_app_add'; [|done].
  f_equal. lia.
Qed.

End RenderedItems.

(** ** Height locks and their timers *)

Section LockTimers.

Context {T : Type}.
Implicit Types st : State T.

(** What the script keeps true of its locks: an index has a pending timer
    exactly when [heightUnlockTimeouts] holds that timer's id for it, no
    pending timer has an id the host has yet to hand out, and an index has
    a locked height exactly when it has a timer id. *)
Definition locks_consistent st : Prop :=
  (∀ id i, timers st !! id = Some i
           ↔ JsArray.get (heightUnlockTimeouts st) i = Some id)
  ∧ (∀ id i, timers st !! id = Some i → id < nextTimerId st)
  ∧ (∀ i, is_Some (JsArray.get (lockedHeights st) i)
          ↔ is_Some (JsArray.get (heightUnlockTimeouts st) i)).

Lemma get_set a i j v :
  JsArray.get (JsArray.set a i v) j =
    if decide (i = j) then Some v else JsArray.get a j.
Proof. apply lookup_insert. Qed.

Lemma get_remove a i j :
  JsArray.get (JsArray.remove a i) j =
    if decide (i = j) then None else JsArray.get a j.
Proof. apply lookup_delete. Qed.

(** The four fields a lock writes, when there is a height to lock. *)
Lemma lockRowHeight_fields st i h :
  JsArray.get (heightMap st) i = Some h →
  h ≠ 0 →
  let st' := lockRowHeight st i in
  lockedHeights st' = JsArray.set (lockedHeights st) i h
  ∧ heightUnlockTimeouts st'
    = JsArray.set (heightUnlockTimeouts st) i (nextTimerId st)
  ∧ timers st'
    = <[nextTimerId st := i]>
        match JsArray.get (heightUnlockTimeouts st) i with
        | Some old => delete old (timers st)
        | None => timers st
        end
  ∧ nextTimerId st' = nextTimerId st + 1.
Proof.
  intros Hget Hh. cbv zeta. unfold lockRowHeight. rewrite Hget.
  apply Z.eqb_neq in Hh. rewrite Hh.
  cbn [heightUnlockTimeouts set_lockedHeights].
  by destruct (JsArray.get (heightUnlockTimeouts st) i).
Qed.

(** Taking a lock keeps the locks and timers consistent. *)
Lemma lockRowHeight_consistent st i :
  locks_consistent st → locks_consistent (lockRowHeight st i).
Proof.
  intros (Hbij & Hfresh & Hlock).
  destruct (truthy (JsArray.get (heightMap st) i)) eqn:Ht;
    [|by rewrite lockRowHeight_falsy].
  unfold truthy in Ht.
  destruct (JsArray.get (heightMap st) i) as [h|] eqn:Hget; [|done].
  assert (Hh : h ≠ 0) by (apply Z.eqb_neq; by destruct (h =? 0)).
  destruct (lockRowHeight_fields st i h Hget Hh) as (HL & HU & HT & HN).
  set (n := nextTimerId st) in *.
  set (old_timers :=
         match JsArray.get (heightUnlockTimeouts st) i with
         | Some old => delete old (timers st)
         | None => timers st
         end) in *.
  assert (Hold : ∀ id j, old_timers !! id = Some j
                         ↔ timers st !! id = Some j ∧ j ≠ i).
  { intros id j. subst old_timers.
    destruct (JsArray.get (heightUnlockTimeouts st) i) as [old|] eqn:Hu.
    - rewrite lookup_delete. case_decide as Hid.
      + subst id. apply Hbij in Hu. split; [done|].
        intros [Hj Hne]. congruence.
      + split; [|by intros [? _]].
        intros Hj. split; [done|]. intros ->.
        apply Hbij in Hj. congruence.
    - split; [|by intros [? _]].
      intros Hj. split; [done|]. intros ->.
      apply Hbij in Hj. congruence. }
  unfold locks_consistent. rewrite HL, HU, HT, HN.
  split; [|split].
  - intros id j. rewrite lookup_insert, get_set.
    destruct (decide (n = id)) as [<-|Hid]; destruct (decide (i = j)) as [<-|Hj].
    + done.
    + split; [congruence|]. intros Hu. apply Hbij, Hfresh in Hu. lia.
    + rewrite Hold. split; [by intros [_ ?] | congruence].
    + rewrite Hold, <- Hbij. split; [by intros [? _] | done].
  - intros id j. rewrite lookup_insert. case_decide as Hid.
    + intros _. subst id. lia.
    + rewrite Hold. intros [Hj _]. apply Hfresh in Hj. lia.
  - intros j. rewrite !get_set. case_decide; [by split; eauto|]. apply Hlock.
Qed.

(** The expiry of a timer keeps the locks and timers consistent. *)
Lemma unlockRowHeight_consistent st id :
  locks_consistent st → locks_consistent (unlockRowHeight id st).
Proof.
  intros (Hbij & Hfresh & Hlock). unfold unlockRowHeight.
  destruct (timers st !! id) as [index|] eqn:Hid; [|done].
  assert (Hu : JsArray.get (heightUnlockTimeouts st) index = Some id)
    by by apply Hbij.
  unfold locks_consistent.
  cbn [timers heightUnlockTimeouts lockedHeights nextTimerId set_timers
       set_lockedHeights set_heightUnlockTimeouts].
  split; [|split].
  - intros id' j. rewrite lookup_delete, get_remove.
    destruct (decide (id = id')) as [<-|Hne]; case_decide as Hj.
    + done.
    + split; [done|]. intros Hj'. apply Hbij in Hj'. congruence.
    + subst j. split; [|done]. intros Hj'. apply Hbij in Hj'. congruence.
    + apply Hbij.
  - intros id' j. rewrite lookup_delete. case_decide; [done|]. apply Hfresh.
  - intros j. rewrite !get_remove. case_decide; [|apply Hlock].
    split; intros [? ?]; done.
Qed.

(** A lock is released by its own timer: after [lockRowHeight(i)] on a
    measured row, index [i] holds the id of a pending timer for [i]; when
    that timer expires the lock and the id are gone, and the locks at other
    indices are as [lockRowHeight] left them. *)
Theorem lockRowHeight_then_expiry st i h :
  JsArray.get (heightMap st) i = Some h →
  h ≠ 0 →
  let st1 := lockRowHeight st i in
  let id := nextTimerId st in
  JsArray.get (lockedHeights st1) i = Some h
  ∧ JsArray.get (heightUnlockTimeouts st1) i = Some id
  ∧ timers st1 !! id = Some i
  ∧ JsArray.get (lockedHeights (unlockRowHeight id st1)) i = None
  ∧ JsArray.get (heightUnlockTimeouts (unlockRowHeight id st1)) i = None
  ∧ timers (unlockRowHeight id st1) !! id = None
  ∧ ∀ j, j ≠ i →
      JsArray.get (lockedHeights (unlockRowHeight id st1)) j
      = JsArray.get (lockedHeights st) j.
Proof.
  intros Hget Hh. cbv zeta.
  destruct (lockRowHeight_fields st i h Hget Hh) as (HL & HU & HT & HN).
  assert (Hpending : timers (lockRowHeight st i) !! nextTimerId st = Some i).
  { rewrite HT. apply lookup_insert_eq. }
  unfold unlockRowHeight. rewrite Hpending.
  cbn [timers heightUnlockTimeouts lockedHeights set_timers
       set_lockedHeights set_heightUnlockTimeouts].
  rewrite HL, HU.
  repeat split.
  - apply get_set_eq.
  - apply get_set_eq.
  - rewrite get_remove. by rewrite decide_True.
  - rewrite get_remove. by rewrite decide_True.
  - apply lookup_delete_eq.
  - intros j Hj. rewrite get_remove, get_set. by rewrite !decide_False.
Qed.

(** Timers are replaced, not stacked: locking a measured row that is
    already locked leaves the number of pending timers as it is, and
    locking one that is not adds one. *)
Theorem lockRowHeight_replaces_timer st i h :
  locks_consistent st →
  JsArray.get (heightMap st) i = Some h →
  h ≠ 0 →
  size (timers (lockRowHeight st i)) =
    if decide (is_Some (JsArray.get (lockedHeights st) i))
    then size (timers st)
    else S (size (timers st)).
Proof.
  intros (Hbij & Hfresh & Hlock) Hget Hh.
  destruct (lockRowHeight_fields st i h Hget Hh) as (_ & _ & HT & _).
  rewrite HT. clear HT.
  assert (Hnew : ∀ m : gmap Z Z, (∀ id j, m !! id = Some j → timers st !! id = Some j) →
                 m !! nextTimerId st = None).
  { intros m Hsub. destruct (m !! nextTimerId st) as [j|] eqn:E; [|done].
    apply Hsub, Hfresh in E. lia. }
  case_decide as Hlocked.
  - apply Hlock in Hlocked as [old Hold]. rewrite Hold.
    assert (Hin : timers st !! old = Some i) by by apply Hbij.
    rewrite map_size_insert_None.
    + rewrite map_size_delete_Some by eauto.
      assert (size (timers st) ≠ 0%nat); [|lia].
      intros Hz. apply map_size_empty_inv in Hz. rewrite Hz in Hin.
      by rewrite lookup_empty in Hin.
    + apply Hnew. intros id j. rewrite lookup_delete. by case_decide.
  - destruct (JsArray.get (heightUnlockTimeouts st) i) as [old|] eqn:Hold.
    + exfalso. apply Hlocked, Hlock. eauto.
    + rewrite map_size_insert_None; [done|]. by apply Hnew.
Qed.

End LockTimers.

(** ** Reconciliation: growth, removal and the watching effect *)

Section Reconciliation.

Context {T : Type} (p : Props T).
Implicit Types st : State T.

Lemma get_set_length a n i :
  JsArray.get (JsArray.set_length a n) i =
    if decide (i < n) then JsArray.get a i else None.
Proof.
  unfold JsArray.get, JsArray.set_length. cbn [JsArray.elems].
  case_decide as Hi.
  - destruct (JsArray.elems a !! i) as [x|] eqn:E.
    + by apply map_lookup_filter_Some.
    + apply map_lookup_filter_None. by left.
  - apply map_lookup_filter_None. right. intros x _. cbn. lia.
Qed.

(** On a change that is neither a full replacement nor a prepend (items
    appended or removed at the end, or the first list seen), the height
    map is cut or extended to the new item count: measured heights below
    the new length stay, those at or past it go.  The render range and the
    locks are not touched. *)
Theorem updateHeightMap_resize st its countDelta headChanged tailChanged :
  items p = Some its →
  (headChanged && tailChanged && (0 <? zlength (previousItems st))) = false →
  (headChanged && negb tailChanged && (0 <? countDelta)) = false →
  ∃ st',
    updateHeightMap p st countDelta headChanged tailChanged = Some st'
    ∧ JsArray.len (heightMap st') = zlength its
    ∧ (∀ i, i < zlength its →
         JsArray.get (heightMap st') i = JsArray.get (heightMap st) i)
    ∧ (∀ i, zlength its ≤ i → JsArray.get (heightMap st') i = None)
    ∧ renderRange st' = renderRange st
    ∧ lockedHeights st' = lockedHeights st.
Proof.
  intros Hitems Hfull Hprep. unfold updateHeightMap.
  rewrite Hitems, Hfull, Hprep.
  eexists; split; [done|]. cbn [heightMap set_heightMap].
  split; [done|]. split; [|split; [|done]].
  - intros i Hi. rewrite get_set_length. by rewrite decide_True.
  - intros i Hi. rewrite get_set_length. by rewrite decide_False by lia.
Qed.

(** Whatever the classification, when [countDelta] is the difference of the
    two lengths, as the effect computes it, the height map comes out as
    long as the item list. *)
Lemma updateHeightMap_sized st its headChanged tailChanged :
  items p = Some its →
  ∃ st',
    updateHeightMap p st (zlength its - zlength (previousItems st))
      headChanged tailChanged = Some st'
    ∧ JsArray.len (heightMap st') = zlength its
    ∧ previousItems st' = previousItems st
    ∧ viewport st' = viewport st.
Proof.
  intros Hitems. unfold updateHeightMap. rewrite Hitems.
  repeat case_match; eexists; (split; [done|]);
    cbn [heightMap set_heightMap set_renderRange]; try done.
  split; [|done]. rewrite shift_loop_len; [done|]. cbn. unfold zlength. lia.
Qed.

(** The handlers entered by [handleItemsChanged] do not write to the
    height map. *)
Lemma lockIfMeasured_heightMap st i :
  heightMap (lockIfMeasured st i) = heightMap st.
Proof.
  unfold lockIfMeasured. destruct (JsArray.get (heightMap st) i); [|done].
  pose proof (lockRowHeight_frame st i) as H. cbv zeta in H. tauto.
Qed.

Lemma initializeAt_heightMap st startingAt :
  heightMap (step_state (initializeAt p st startingAt)) = heightMap st.
Proof.
  unfold initializeAt.
  repeat case_match; cbn; rewrite ?lockIfMeasured_heightMap; done.
Qed.

Lemma handleItemsAdded_heightMap st countDelta headChanged tailChanged :
  heightMap (step_state
               (handleItemsAdded p st countDelta headChanged tailChanged))
    = heightMap st.
Proof. unfold handleItemsAdded. by repeat case_match. Qed.

Lemma step_state_await_call (s : Step T) :
  step_state (await_call s) = step_state s.
Proof. by destruct s. Qed.

Lemma handleItemsChanged_heightMap st st1 countDelta headChanged tailChanged :
  updateHeightMap p st countDelta headChanged tailChanged = Some st1 →
  heightMap (step_state
               (handleItemsChanged p st countDelta headChanged tailChanged))
    = heightMap st1.
Proof.
  intros Hupd. unfold handleItemsChanged. rewrite Hupd.
  repeat case_match; rewrite ?step_state_await_call;
    rewrite ?initializeAt_heightMap, ?handleItemsAdded_heightMap; done.
Qed.

Section Effect.

Context (getId : T → option string) (truthyItem : T → bool).

(** The effect that watches [items], run with a viewport on a list that is
    not empty, leaves the height map as long as the list and remembers the
    list as [previousItems]. *)
Theorem itemsEffect_sizes_heightMap st its v :
  viewport st = Some v →
  items p = Some its →
  its ≠ [] →
  let st' := itemsEffect p getId truthyItem st in
  JsArray.len (heightMap st') = zlength its
  ∧ previousItems st' = its.
Proof.
  intros Hv Hitems Hne. cbv zeta. unfold itemsEffect. rewrite Hv, Hitems.
  destruct its as [|first rest]; [done|].
  cbn [previousItems heightMap set_previousItems]. split; [|done].
  set (hc := identityChanged _ _ _ _).
  set (tc := identityChanged _ _ _ _).
  destruct (updateHeightMap_sized st (first :: rest) hc tc Hitems)
    as (st1 & Hupd & Hlen & _).
  by rewrite (handleItemsChanged_heightMap _ st1).
Qed.

(** With a stored render range that is empty (nothing initialized yet, and
    no previous list), the first list the effect sees starts the
    initialization: in stick-to-bottom mode at the last item, whatever
    [startIndex] says, and otherwise at [startIndex], or at item 0 when
    there is none.  The render range is then the single row of that item,
    provided the item exists. *)
Theorem itemsEffect_starts_initialization st its v :
  viewport st = Some v →
  items p = Some its →
  its ≠ [] →
  previousItems st = [] →
  r_end (renderRange st) = 0 →
  let initAt :=
    if stickToBottom p then zlength its - 1 else js_or (startIndex p) 0 in
  initAt < zlength its →
  renderRange (itemsEffect p getId truthyItem st)
    = mkRange initAt (initAt + 1).
Proof.
  intros Hv Hitems Hne Hprev Hend initAt Hin. unfold itemsEffect.
  rewrite Hv, Hitems. destruct its as [|first rest]; [done|].
  cbn [renderRange set_previousItems]. rewrite Hprev. cbn [head last].
  unfold identityChanged at 1 2.
  unfold handleItemsChanged, updateHeightMap. rewrite Hitems, Hprev.
  cbn [andb negb]. change (0 <? zlength (@nil T)) with false. cbv iota.
  unfold isInitialized. cbn [renderRange set_heightMap]. rewrite Hend.
  cbn [Z.eqb negb andb].
  replace (0 <? zlength (first :: rest)) with true
    by (symmetry; apply Z.ltb_lt; unfold zlength; cbn [length]; lia).
  rewrite step_state_await_call.
  set (st1 := set_heightMap _ st).
  destruct (initializeAt_in_range p st1 (first :: rest) v initAt Hitems Hv Hin)
    as (st2 & Heq & Hrange & _).
  fold initAt. by rewrite Heq.
Qed.

End Effect.

(** In stick-to-bottom mode, when items were put in front of the list, the
    render range is moved up by their number before anything else happens,
    so the rows keep showing the items they showed; the paddings are
    recomputed for the moved range. *)
Theorem handleItemsAdded_prepend_keeps_rows st v added old countDelta :
  items p = Some (added ++ old) →
  stickToBottom p = true →
  viewport st = Some v →
  countDelta = zlength added →
  0 ≤ r_start (renderRange st) →
  0 ≤ r_end (renderRange st) →
  ∃ st',
    handleItemsAdded p st countDelta true false
      = Awaiting st' (AddedPrepend countDelta)
    ∧ r_start (renderRange st') = r_start (renderRange st) + countDelta
    ∧ renderItems p st'
      = Some (js_slice old (r_start (renderRange st)) (r_end (renderRange st)))
    ∧ top (offset st') = sumRange p st' 0 (r_start (renderRange st'))
    ∧ bottom (offset st')
      = sumRange p st' (r_end (renderRange st')) (JsArray.len (heightMap st')).
Proof.
  intros Hitems Hstick Hv -> Hs He. unfold handleItemsAdded.
  rewrite Hstick, Hv, Hitems. cbn [andb negb].
  rewrite bool_decide_eq_true_2 by eauto.
  eexists; split; [done|]. split; [done|].
  split; [|split].
  - unfold renderItems. rewrite Hitems. f_equal.
    cbn [renderRange updateOffsets set_offset set_renderRange r_start r_end].
    set (s := r_start (renderRange st)). set (e := r_end (renderRange st)).
    destruct (decide (e ≤ zlength old)) as [Hle|Hgt].
    + rewrite Z.min_l by (unfold zlength in *; rewrite length_app; lia).
      by apply js_slice_prepend.
    + rewrite Z.min_r by (unfold zlength in *; rewrite length_app; lia).
      replace (zlength (added ++ old)) with (zlength old + zlength added)
        by (unfold zlength; rewrite length_app; lia).
      rewrite js_slice_prepend by (unfold zlength; lia).
      unfold js_slice.
      replace (s <? 0) with false by (symmetry; apply Z.ltb_ge; lia).
      replace (e <? 0) with false by (symmetry; apply Z.ltb_ge; lia).
      replace (zlength old <? 0) with false
        by (symmetry; apply Z.ltb_ge; unfold zlength; lia).
      do 2 f_equal. lia.
  - cbn. by rewrite calculateHeightSum_sumRange.
  - cbn. by rewrite calculateHeightSum_sumRange.
Qed.

End Reconciliation.

(** ** The steps of the initialization *)

Section Initialization.

Context {T : Type} (assignScrollTop : Viewport → Z → Viewport) (p : Props T).
Implicit Types st : State T.

Lemma lockIfMeasured_renderRange st i :
  renderRange (lockIfMeasured st i) = renderRange st.
Proof.
  unfold lockIfMeasured. destruct (JsArray.get (heightMap st) i); [|done].
  pose proof (lockRowHeight_frame st i) as H. cbv zeta in H. tauto.
Qed.

(** [initializeAt] is its first loop entered at [startingAt], after the
    check of the viewport and the assignment to [renderRange.start]. *)
Lemma initializeAt_forward_entry st startingAt :
  initializeAt p st startingAt =
    match viewport st with
    | None => Returned st
    | Some _ =>
        initializeAt_forward p
          (set_renderRange (mkRange startingAt (r_end (renderRange st))) st)
          startingAt startingAt
    end.
Proof.
  unfold initializeAt, initializeAt_forward, initializeAt_backward,
    initializeAt_settle.
  by repeat case_match.
Qed.

(** The render range holds [startingAt] and lies within the list. *)
Definition range_holds (its : list T) (startingAt : Z) st : Prop :=
  0 ≤ r_start (renderRange st)
  ∧ r_start (renderRange st) ≤ startingAt
  ∧ startingAt < r_end (renderRange st)
  ∧ r_end (renderRange st) ≤ zlength its.

(** What is true of the render range while [initializeAt] waits, as long
    as nothing else has written to it: in the first loop it runs from
    [startingAt] to the row waited for; in the second it starts at the row
    waited for, below [startingAt]. *)
Definition init_inv (its : list T) (startingAt : Z) st (k : Suspension)
    : Prop :=
  match k with
  | InitForward s i =>
      s = startingAt ∧ startingAt ≤ i
      ∧ renderRange st = mkRange startingAt (i + 1)
      ∧ range_holds its startingAt st
  | InitBackward s i =>
      s = startingAt ∧ r_start (renderRange st) = i
      ∧ range_holds its startingAt st
  | InitOffsets s => s = startingAt ∧ range_holds its startingAt st
  | _ => False
  end.

(** The places where [initializeAt] can wait: the loop index has passed the
    test of its loop. *)
Definition token_ok (its : list T) (k : Suspension) : Prop :=
  match k with
  | InitForward _ i => i < zlength its
  | InitBackward _ i => 0 ≤ i
  | InitOffsets _ => True
  | _ => False
  end.

(** The ticks [initializeAt] may still wait for, the one it waits for
    included: the rest of the first loop, the whole second loop and the
    tick after [updateOffsets]. *)
Definition ticks_left (its : list T) (k : Suspension) : Z :=
  match k with
  | InitForward s i => zlength its - i + Z.max 0 s + 1
  | InitBackward _ i => i + 2
  | InitOffsets _ => 1
  | _ => 0
  end.

Definition waiting (s : Step T) : bool :=
  match s with
  | Awaiting _ _ => true
  | _ => false
  end.

(** [initializeAt] run through its ticks.  [between t] is what the host and
    the other handlers make of the state during tick [t]; the function is
    resumed on the state they leave.  [fuel] bounds the number of
    resumptions. *)
Fixpoint initializeAt_run (between : nat → State T → State T)
    (fuel t : nat) (s : Step T) : Step T :=
  match fuel, s with
  | S fuel', Awaiting st k =>
      initializeAt_run between fuel' (S t)
        (initializeAt_resume p assignScrollTop (between t st) k)
  | _, _ => s
  end.

Lemma ticks_left_pos its k : token_ok its k → 0 < ticks_left its k.
Proof. destruct k; cbn; lia. Qed.

(** On any state, a resumption that waits again waits at a place of its
    loops with fewer ticks left. *)
Lemma initializeAt_resume_ticks st its k :
  items p = Some its →
  token_ok its k →
  match initializeAt_resume p assignScrollTop st k with
  | Awaiting _ k' => token_ok its k' ∧ ticks_left its k' < ticks_left its k
  | _ => True
  end.
Proof.
  intros Hitems Hok.
  unfold initializeAt_resume, initializeAt_forward, initializeAt_backward,
    initializeAt_settle.
  rewrite Hitems.
  destruct k as [s i|s i|s| | | | | |]; cbn [token_ok] in Hok; try done.
  - repeat case_match; simplify_eq; cbn [token_ok ticks_left]; try done;
      split; lia.
  - repeat case_match; simplify_eq; cbn [token_ok ticks_left]; try done;
      split; lia.
  - by destruct (viewport st).
Qed.

Lemma initializeAt_entry_ticks st its startingAt :
  items p = Some its →
  match initializeAt p st startingAt with
  | Awaiting _ k =>
      token_ok its k
      ∧ ticks_left its k
        ≤ Z.max 0 (zlength its - startingAt) + Z.max 0 startingAt + 1
  | _ => True
  end.
Proof.
  intros Hitems. rewrite initializeAt_forward_entry.
  unfold initializeAt_forward, initializeAt_backward, initializeAt_settle.
  rewrite Hitems.
  repeat case_match; simplify_eq; cbn [token_ok ticks_left]; try done;
    split; lia.
Qed.

Lemma initializeAt_run_ends between its fuel t st k :
  items p = Some its →
  token_ok its k →
  ticks_left its k ≤ Z.of_nat fuel →
  waiting (initializeAt_run between fuel t (Awaiting st k)) = false.
Proof.
  intros Hitems. revert t st k.
  induction fuel as [|fuel IH]; intros t st k Hok Hfuel.
  - pose proof (ticks_left_pos its k Hok). lia.
  - cbn [initializeAt_run].
    pose proof (initializeAt_resume_ticks (between t st) its k Hitems Hok)
      as Hstep.
    destruct (initializeAt_resume p assignScrollTop (between t st) k)
      as [st'|st' k'|st'].
    + by destruct fuel.
    + destruct Hstep as [Hok' Hlt]. apply IH; [done|lia].
    + by destruct fuel.
Qed.

(** As long as the list of items stays the same, [initializeAt] ends: it
    has returned or thrown after at most
    [max 0 (items.length - startingAt) + max 0 startingAt + 1] ticks, which
    is [items.length + 1] for a starting index of the list.  This holds
    whatever is done to the state of the component during the ticks: a
    jump, a reset of the render range, rows that come or go. *)
Theorem initializeAt_terminates between st its startingAt :
  items p = Some its →
  waiting
    (initializeAt_run between
       (Z.to_nat
          (Z.max 0 (zlength its - startingAt) + Z.max 0 startingAt + 1))
       O (initializeAt p st startingAt))
  = false.
Proof.
  intros Hitems.
  pose proof (initializeAt_entry_ticks st its startingAt Hitems) as Hentry.
  destruct (initializeAt p st startingAt) as [st'|st' k|st'].
  - by destruct (Z.to_nat _).
  - destruct Hentry as [Hok Hle].
    apply (initializeAt_run_ends between its); [done|done|lia].
  - by destruct (Z.to_nat _).
Qed.

(** While nothing else has written to the render range, a resumption keeps
    it a range of the list that holds [startingAt]. *)
Lemma initializeAt_resume_inv st its startingAt k :
  items p = Some its →
  init_inv its startingAt st k →
  match initializeAt_resume p assignScrollTop st k with
  | Awaiting st' k' => init_inv its startingAt st' k'
  | Returned st' | Thrown st' => range_holds its startingAt st'
  end.
Proof.
  intros Hitems Hinv.
  unfold initializeAt_resume, initializeAt_forward, initializeAt_backward,
    initializeAt_settle, isInitialized.
  rewrite Hitems.
  destruct k as [s i|s i|s| | | | | |]; cbn [init_inv] in Hinv; try done.
  - destruct Hinv as (-> & Hi & Hrange & Hholds).
    unfold range_holds in *. rewrite Hrange in *. cbn [r_start r_end] in *.
    repeat case_match; simplify_eq;
      cbn [init_inv range_holds renderRange set_renderRange
           set_heightMap set_offset updateOffsets r_start r_end] in *;
      unfold range_holds;
      rewrite ?lockIfMeasured_renderRange;
      cbn [renderRange set_renderRange set_heightMap set_offset
           updateOffsets r_start r_end];
      rewrite ?Hrange; cbn [r_start r_end]; repeat split; done || lia.
  - destruct Hinv as (-> & Hi & Hholds).
    unfold range_holds in *.
    repeat case_match; simplify_eq;
      cbn [init_inv range_holds renderRange set_renderRange
           set_heightMap set_viewport set_offset updateOffsets
           r_start r_end] in *;
      unfold range_holds;
      rewrite ?lockIfMeasured_renderRange;
      cbn [renderRange set_renderRange set_heightMap set_viewport set_offset
           updateOffsets r_start r_end];
      repeat split; done || lia.
  - destruct Hinv as (-> & Hholds).
    by destruct (viewport st).
Qed.

Lemma lockIfMeasured_heightMap_kept st i :
  heightMap (lockIfMeasured st i) = heightMap st.
Proof.
  unfold lockIfMeasured. destruct (JsArray.get (heightMap st) i); [|done].
  pose proof (lockRowHeight_frame st i) as H. cbv zeta in H. tauto.
Qed.

(** What a resumption in the first loop stores: the [clientHeight] of the
    row at position [i - startingAt] among the rendered rows. *)
Lemma initializeAt_resume_stores st s i h :
  rowClientHeight st (i - s) = Some h →
  JsArray.get
    (heightMap
       (step_state (initializeAt_resume p assignScrollTop st (InitForward s i))))
    i
  = Some h.
Proof.
  intros Hrow.
  unfold initializeAt_resume, initializeAt_forward, initializeAt_backward,
    initializeAt_settle.
  rewrite Hrow.
  repeat case_match; simplify_eq;
    cbn [step_state heightMap set_renderRange set_heightMap set_offset
         updateOffsets];
    rewrite ?lockIfMeasured_heightMap_kept;
    cbn [heightMap set_heightMap]; apply get_set_eq.
Qed.

(** A resumption of [initializeAt] after a tick, on the state it finds.

    On any state: when the row it waited for is missing
    ([visibleRowElements] absent or too short) the function returns at once
    and leaves the state as it found it; when, in the first loop, there is
    a row at position [i - startingAt], its [clientHeight] is stored as the
    height of index [i], whichever item that row shows by then.

    When the render range at the resumption still is the one the function
    left before the tick (no jump, reset or pass wrote to it in between),
    it stays a range of the list that holds [startingAt], whether the
    function waits again, returns or throws. *)
Theorem initializeAt_resume_after_tick st its startingAt k s i h :
  items p = Some its →
  (rowClientHeight st (i - s) = None →
   initializeAt_resume p assignScrollTop st (InitForward s i) = Returned st)
  ∧ (rowClientHeight st 0 = None →
     initializeAt_resume p assignScrollTop st (InitBackward s i)
     = Returned st)
  ∧ (rowClientHeight st (i - s) = Some h →
     JsArray.get
       (heightMap
          (step_state
             (initializeAt_resume p assignScrollTop st (InitForward s i))))
       i
     = Some h)
  ∧ (init_inv its startingAt st k →
     match initializeAt_resume p assignScrollTop st k with
     | Awaiting st' k' => init_inv its startingAt st' k'
     | Returned st' | Thrown st' => range_holds its startingAt st'
     end).
Proof.
  intros Hitems. split_and!.
  - intros Hrow. unfold initializeAt_resume. by rewrite Hrow.
  - intros Hrow. unfold initializeAt_resume. by rewrite Hrow.
  - apply initializeAt_resume_stores.
  - by apply initializeAt_resume_inv.
Qed.

End Initialization.

(** ** The recalculation pass and the scroll handler *)

Section RecalculationPass.

Context {T : Type} (scrollTo : Viewport → Z → Viewport) (p : Props T).
Implicit Types st : State T.

(** Two states that differ at most in the locked heights and the timers. *)
Definition only_locks_differ st st' : Prop :=
  viewport st' = viewport st
  ∧ visibleRowElements st' = visibleRowElements st
  ∧ previousItems st' = previousItems st
  ∧ heightMap st' = heightMap st
  ∧ renderRange st' = renderRange st
  ∧ visibleRange st' = visibleRange st
  ∧ offset st' = offset st
  ∧ previousDistance st' = previousDistance st
  ∧ hasNewItemsAtBottom st' = hasNewItemsAtBottom st
  ∧ isRecalculating st' = isRecalculating st
  ∧ lastScrollTop st' = lastScrollTop st
  ∧ lastScrollDirection st' = lastScrollDirection st
  ∧ lastJumpToIndex st' = lastJumpToIndex st
  ∧ skipNextScrollEvent st' = skipNextScrollEvent st
  ∧ loadMoreCalls st' = loadMoreCalls st.

Lemma only_locks_differ_refl st : only_locks_differ st st.
Proof. by repeat split. Qed.

Lemma only_locks_differ_trans st1 st2 st3 :
  only_locks_differ st1 st2 → only_locks_differ st2 st3 →
  only_locks_differ st1 st3.
Proof.
  unfold only_locks_differ. intros H12 H23.
  destruct_and!. repeat split; congruence.
Qed.

Lemma lockRowHeight_only_locks st i :
  only_locks_differ st (lockRowHeight st i).
Proof.
  unfold lockRowHeight.
  destruct (JsArray.get (heightMap st) i) as [h|];
    [|apply only_locks_differ_refl].
  destruct (h =? 0); [apply only_locks_differ_refl|].
  destruct (JsArray.get (heightUnlockTimeouts _) i); by repeat split.
Qed.

Lemma lock_loop_only_locks st n i :
  only_locks_differ st (lock_loop st n i).
Proof.
  revert st i. induction n as [|n IH]; intros st i;
    [apply only_locks_differ_refl|].
  cbn [lock_loop]. case_match; [|apply IH].
  eapply only_locks_differ_trans; [apply lockRowHeight_only_locks | apply IH].
Qed.

(** The state in which [recalculateRanges] waits after it has replaced the
    render range. *)
Lemma recalculateRanges_replace_state st oldStart oldEnd distance r :
  ∃ st',
    recalculateRanges_replace p st oldStart oldEnd distance r
      = Awaiting st' (RecalcTick distance (visibleStart r) (visibleEnd r))
    ∧ only_locks_differ
        (updateOffsets p
           (set_renderRange (mkRange (renderStart r) (renderEnd r)) st))
        st'.
Proof.
  unfold recalculateRanges_replace. eexists; split; [done|].
  eapply only_locks_differ_trans; apply lock_loop_only_locks.
Qed.

Lemma recalculateRanges_finish_isRecalculating st distance vs ve :
  isRecalculating (recalculateRanges_finish scrollTo p st distance vs ve)
    = false.
Proof.
  unfold recalculateRanges_finish, debouncedLoadMore. by case_match.
Qed.

(** How a pass of [recalculateRanges] found running none before it uses
    its flag: when it returns the flag is down again; while it waits for
    the tick the flag is up, a second pass started meanwhile returns at
    once without touching anything, and the resumption lowers the flag on
    whatever state it finds.  Only the [TypeError] on an absent [items]
    leaves the flag up. *)
Theorem recalculateRanges_flag st :
  isRecalculating st = false →
  match recalculateRanges scrollTo p st with
  | Returned st' => isRecalculating st' = false
  | Awaiting st' k =>
      isRecalculating st' = true
      ∧ recalculateRanges scrollTo p st' = Returned st'
      ∧ ∀ st'', isRecalculating (recalculateRanges_resume scrollTo p st'' k)
                = false
  | Thrown st' => isRecalculating st' = true ∧ items p = None
  end.
Proof.
  intros Hflag. unfold recalculateRanges at 1.
  destruct (viewport st) as [v|] eqn:Hv; [|done].
  destruct (visibleRowElements st) as [rows|] eqn:Hrows; [|done].
  destruct (isInitialized st) eqn:Hinit; [|done].
  rewrite Hflag. cbn [negb orb].
  set (st1 := set_isRecalculating true st).
  destruct (calculateVisibleRange p st1) as [r|] eqn:Hcalc.
  2:{ split; [done|]. unfold calculateVisibleRange in Hcalc.
      destruct (items p); [|done]. by repeat case_match. }
  unfold recalculateRanges_apply.
  destruct (recalculateRanges_replace_state st1 (r_start (renderRange st1))
              (r_end (renderRange st1)) (getDistanceFromBottom st1) r)
    as (st2 & Heq & Hsame).
  assert (Hwait :
    isRecalculating st2 = true
    ∧ recalculateRanges scrollTo p st2 = Returned st2
    ∧ ∀ st'',
        isRecalculating
          (recalculateRanges_resume scrollTo p st''
             (RecalcTick (getDistanceFromBottom st1) (visibleStart r)
                (visibleEnd r))) = false).
  { unfold only_locks_differ in Hsame. cbn in Hsame. destruct_and!.
    assert (Hup : isRecalculating st2 = true) by congruence.
    split; [done|]. split.
    - unfold recalculateRanges.
      replace (viewport st2) with (Some v) by congruence.
      replace (visibleRowElements st2) with (Some rows) by congruence.
      rewrite Hup. by rewrite orb_true_r.
    - intros st''. apply recalculateRanges_finish_isRecalculating. }
  rewrite Heq.
  destruct (negb (renderStart r =? r_start (renderRange st1))
            || negb (renderEnd r =? r_end (renderRange st1)));
    [|apply recalculateRanges_finish_isRecalculating].
  destruct (renderEnd r <=? renderStart r); [|exact Hwait].
  destruct (items p) as [its|] eqn:Hitems; [|done].
  destruct (0 <? zlength its); [done | exact Hwait].
Qed.

(** When a pass replaces the render range, the new range is the calculated
    one, the paddings are the height sums on its two sides, and neither the
    height map nor the viewport was written. *)
Lemma recalculateRanges_applies_range st st' k :
  recalculateRanges scrollTo p st = Awaiting st' k →
  ∃ r,
    calculateVisibleRange p st = Some r
    ∧ renderRange st' = mkRange (renderStart r) (renderEnd r)
    ∧ renderRange st' ≠ renderRange st
    ∧ k = RecalcTick (getDistanceFromBottom st)
            (visibleStart r) (visibleEnd r)
    ∧ top (offset st') = sumRange p st' 0 (renderStart r)
    ∧ bottom (offset st')
      = sumRange p st' (renderEnd r) (JsArray.len (heightMap st'))
    ∧ heightMap st' = heightMap st
    ∧ viewport st' = viewport st.
Proof.
  unfold recalculateRanges.
  destruct (viewport st) as [v|] eqn:Hv; [|done].
  destruct (visibleRowElements st) as [rows|] eqn:Hrows; [|done].
  destruct (negb (isInitialized st) || isRecalculating st); [done|].
  set (st1 := set_isRecalculating true st).
  rewrite (calculateVisibleRange_ext p st1 st) by done.
  destruct (calculateVisibleRange p st) as [r|] eqn:Hcalc; [|done].
  unfold recalculateRanges_apply.
  destruct (recalculateRanges_replace_state st1 (r_start (renderRange st1))
              (r_end (renderRange st1)) (getDistanceFromBottom st1) r)
    as (st2 & Heq & Hsame).
  rewrite Heq.
  destruct (negb (renderStart r =? r_start (renderRange st1))
            || negb (renderEnd r =? r_end (renderRange st1))) eqn:Hchanged;
    [|done].
  intros Hres.
  assert (Hst : st' = st2 ∧ k = RecalcTick (getDistanceFromBottom st1)
                                 (visibleStart r) (visibleEnd r)).
  { repeat case_match; by simplify_eq. }
  destruct Hst as [-> ->]. exists r.
  unfold only_locks_differ in Hsame. subst st1.
  cbn [viewport visibleRowElements previousItems heightMap renderRange
       visibleRange previousDistance hasNewItemsAtBottom isRecalculating
       lastScrollTop lastScrollDirection lastJumpToIndex skipNextScrollEvent
       loadMoreCalls updateOffsets set_offset set_renderRange
       set_isRecalculating] in Hsame.
  assert (Hhm : heightMap st2 = heightMap st) by tauto.
  assert (Hsum : ∀ a b, sumRange p st2 a b = sumRange p st a b).
  { intros a b. unfold sumRange, getItemHeight. by rewrite Hhm. }
  destruct_and!.
  repeat split; try congruence.
  - replace (renderRange st2) with
      (mkRange (renderStart r) (renderEnd r)) by congruence.
    intros Heq'. cbn [renderRange set_isRecalculating] in Hchanged.
    rewrite <- Heq' in Hchanged. cbn in Hchanged.
    by rewrite !Z.eqb_refl in Hchanged.
  - replace (offset st2) with (offset (updateOffsets p
      (set_renderRange (mkRange (renderStart r) (renderEnd r))
         (set_isRecalculating true st))))
      by congruence.
    cbn. rewrite calculateHeightSum_sumRange, Hsum. done.
  - replace (offset st2) with (offset (updateOffsets p
      (set_renderRange (mkRange (renderStart r) (renderEnd r))
         (set_isRecalculating true st))))
      by congruence.
    cbn. rewrite calculateHeightSum_sumRange, Hsum.
    by rewrite Hhm.
Qed.

(** A pass never writes to the height map, whatever way it ends. *)
Lemma recalculateRanges_heightMap st :
  heightMap (step_state (recalculateRanges scrollTo p st)) = heightMap st.
Proof.
  destruct (recalculateRanges scrollTo p st) as [st'|st' k|st'] eqn:Hres.
  - revert Hres. unfold recalculateRanges, recalculateRanges_apply,
      recalculateRanges_replace, recalculateRanges_finish, debouncedLoadMore,
      scrollToBottom.
    intros Hres. repeat case_match; by simplify_eq.
  - by destruct (recalculateRanges_applies_range st st' k Hres)
      as (r & _ & _ & _ & _ & _ & _ & Hhm & _).
  - revert Hres. unfold recalculateRanges, recalculateRanges_apply,
      recalculateRanges_replace.
    intros Hres. repeat case_match; by simplify_eq.
Qed.

(** The direction of the last scroll: [up] exactly when the offset went
    down since the last sample, [down] exactly when it went up, none on the
    first sample; the sample is remembered, so a second reading at the same
    offset clears the direction. *)
Theorem updateScrollDirection_tracks st v :
  viewport st = Some v →
  let st' := updateScrollDirection st in
  lastScrollTop st' = Some (scrollTop v)
  ∧ (lastScrollDirection st' = Some up
     ↔ ∃ l, lastScrollTop st = Some l ∧ scrollTop v < l)
  ∧ (lastScrollDirection st' = Some down
     ↔ ∃ l, lastScrollTop st = Some l ∧ l < scrollTop v)
  ∧ lastScrollDirection (updateScrollDirection st') = None.
Proof.
  intros Hv. cbv zeta. unfold updateScrollDirection. rewrite Hv.
  cbn [viewport set_lastScrollTop set_lastScrollDirection lastScrollTop
       lastScrollDirection].
  rewrite Hv. cbn [lastScrollTop lastScrollDirection set_lastScrollTop
                   set_lastScrollDirection].
  rewrite Z.ltb_irrefl.
  split; [done|].
  destruct (lastScrollTop st) as [l|]; cbn.
  - destruct (scrollTop v <? l) eqn:E1; destruct (l <? scrollTop v) eqn:E2;
      repeat split; try done; try (intros (l' & [= <-] & ?); lia);
      try (intros _; exists l; split; [done|lia]).
  - repeat split; try done; by intros (l' & ? & _).
Qed.

End RecalculationPass.

(** ** Resize notifications and the scroll handler *)

Section ResizeAndScroll.

Context {T : Type} (scrollTo : Viewport → Z → Viewport) (p : Props T)
  (assignScrollTop : Viewport → Z → Viewport)
  (scrollBy : Viewport → option Z → Viewport).
Implicit Types st : State T.

Lemma lockIfMeasured_only_locks st i :
  only_locks_differ st (lockIfMeasured st i).
Proof.
  unfold lockIfMeasured. destruct (JsArray.get (heightMap st) i).
  - apply lockRowHeight_only_locks.
  - apply only_locks_differ_refl.
Qed.

(** [initializeAt], up to its first tick, writes the render range, the
    paddings and locks, and nothing else. *)
Lemma initializeAt_frame st startingAt :
  let st' := step_state (initializeAt p st startingAt) in
  viewport st' = viewport st
  ∧ heightMap st' = heightMap st
  ∧ skipNextScrollEvent st' = skipNextScrollEvent st
  ∧ lastScrollDirection st' = lastScrollDirection st
  ∧ lastScrollTop st' = lastScrollTop st
  ∧ lastJumpToIndex st' = lastJumpToIndex st.
Proof.
  cbv zeta. unfold initializeAt.
  destruct (viewport st) as [v|] eqn:Hv; [|done].
  destruct (items p) as [its|]; [|done].
  set (st0 := set_renderRange _ st).
  destruct (startingAt <? zlength its).
  - pose proof (lockIfMeasured_only_locks st0 startingAt) as H.
    unfold only_locks_differ in H. cbn in *. destruct_and!.
    repeat split; congruence.
  - destruct (0 <=? startingAt - 1).
    + pose proof (lockIfMeasured_only_locks st0 (startingAt - 1)) as H.
      unfold only_locks_differ in H. cbn in *. destruct_and!.
      repeat split; congruence.
    + by destruct (negb (isInitialized st0)).
Qed.

(** The scroll event that follows a jump is swallowed: after
    [jumpToIndex(i)] for an index of the list, with a viewport, the scroll
    handler only lowers the suppression flag; it does not sample the scroll
    direction and starts no recalculation.  The handler after that one
    samples and recalculates again. *)
Theorem onscroll_after_jump st its v index :
  items p = Some its →
  0 ≤ index < zlength its →
  viewport st = Some v →
  let st1 := jumpToIndex p st index in
  let st2 := set_skipNextScrollEvent false st1 in
  onscroll scrollTo p st1 = Returned st2
  ∧ lastScrollDirection st2 = None
  ∧ lastScrollTop st2 = lastScrollTop st
  ∧ onscroll scrollTo p st2
    = recalculateRanges scrollTo p (updateScrollDirection st2).
Proof.
  intros Hitems Hin Hv. cbv zeta.
  assert (Hjump : jumpToIndex p st index =
    step_state (initializeAt p
      (lockRowHeight
         (set_lastJumpToIndex (Some index)
            (set_skipNextScrollEvent true (set_lastScrollDirection None st)))
         index) index)).
  { unfold jumpToIndex. rewrite Hitems.
    replace ((index <? 0) || (zlength its - 1 <? index)) with false; [done|].
    symmetry. apply orb_false_iff. split; apply Z.ltb_ge; lia. }
  set (st0 := set_lastJumpToIndex _ _) in Hjump.
  pose proof (lockRowHeight_only_locks st0 index) as Hlock.
  unfold only_locks_differ in Hlock. cbn in Hlock.
  pose proof (initializeAt_frame (lockRowHeight st0 index) index) as Hinit.
  cbv zeta in Hinit. rewrite <- Hjump in Hinit.
  set (st1 := jumpToIndex p st index) in *.
  assert (Hv1 : viewport st1 = Some v) by (destruct_and!; congruence).
  assert (Hskip : skipNextScrollEvent st1 = true)
    by (destruct_and!; congruence).
  assert (Hdir : lastScrollDirection st1 = None)
    by (destruct_and!; congruence).
  assert (Htop : lastScrollTop st1 = lastScrollTop st)
    by (destruct_and!; congruence).
  unfold onscroll. cbn [viewport skipNextScrollEvent set_skipNextScrollEvent].
  by rewrite Hv1, Hskip.
Qed.

(** While the user scrolls up, what a resize does is settled by the first
    rendered row alone: when the resized row is the first rendered one and
    the scroll offset differs from the top padding, the viewport is
    scrolled by the change of that row's height; in every other case
    nothing changes.  The view is never brought to the bottom and no scroll
    event is suppressed. *)
Theorem compensateScrollForResize_scrolling_up st index oldHeight :
  lastScrollDirection st = Some up →
  compensateScrollForResize scrollTo p assignScrollTop scrollBy
    st index oldHeight
  = Returned
      match viewport st with
      | None => st
      | Some v =>
          if negb (calculateHeightSum p st 0 (r_start (renderRange st))
                   =? scrollTop v)
             && (r_start (renderRange st) =? index)
          then
            set_viewport
              (Some (scrollBy v
                       ((λ h, h - oldHeight)
                          <$> JsArray.get (heightMap st) index)))
              st
          else st
      end.
Proof.
  intros Hup. unfold compensateScrollForResize. rewrite Hup.
  destruct (viewport st) as [v|] eqn:Hv; [|done].
  cbn [andb negb]. rewrite !andb_false_r. cbn [andb].
  destruct (negb (calculateHeightSum p st 0 (r_start (renderRange st))
                  =? scrollTop v)); cbn [andb]; [|done].
  destruct (r_start (renderRange st) =? index); [|done].
  by destruct (JsArray.get (heightMap st) index).
Qed.

(** A resize compensation never writes to the height map. *)
Lemma compensateScrollForResize_heightMap st index oldHeight :
  heightMap
    (step_state
       (compensateScrollForResize scrollTo p assignScrollTop scrollBy
          st index oldHeight))
  = heightMap st.
Proof.
  unfold compensateScrollForResize, scrollToBottom.
  by repeat case_match.
Qed.

Lemma compensateScrollForResize_viewport st index oldHeight :
  is_Some (viewport st) →
  is_Some
    (viewport
       (step_state
          (compensateScrollForResize scrollTo p assignScrollTop scrollBy
             st index oldHeight))).
Proof.
  intros [v Hv]. unfold compensateScrollForResize, scrollToBottom.
  rewrite Hv. repeat case_match; cbn; simplify_eq; eauto.
Qed.

(** An entry the callback makes use of. *)
Definition usable (entry : ResizeEntry) : bool :=
  isConnected entry && isHTMLElement entry.

(** The height last reported for index [i] in a batch of entries. *)
Fixpoint reported (entries : list ResizeEntry) (i : Z) : option Z :=
  match entries with
  | [] => None
  | entry :: rest =>
      match reported rest i with
      | Some h => Some h
      | None =>
          if usable entry && bool_decide (datasetIndex entry = Some i)
          then Some (targetClientHeight entry)
          else None
      end
  end.

Lemma observe_entries_records st flag entries st' flag' :
  observe_entries scrollTo p assignScrollTop scrollBy st flag entries
    = inl (st', flag') →
  (∀ i, JsArray.get (heightMap st') i =
          match reported entries i with
          | Some h => Some h
          | None => JsArray.get (heightMap st) i
          end)
  ∧ flag' = flag || existsb usable entries.
Proof.
  revert st flag. induction entries as [|entry rest IH]; intros st flag.
  - cbn. intros [= -> ->]. by rewrite orb_false_r.
  - cbn [observe_entries reported existsb].
    replace (usable entry) with (isConnected entry && isHTMLElement entry)
      by done.
    destruct (isConnected entry); cbn [negb andb orb];
      [|intros H; apply IH in H as [Hh ->]; split; [|done];
        intros i; rewrite Hh; by destruct (reported rest i)].
    destruct (isHTMLElement entry); cbn [negb andb orb];
      [|intros H; apply IH in H as [Hh ->]; split; [|done];
        intros i; rewrite Hh; by destruct (reported rest i)].
    destruct (datasetIndex entry) as [index|] eqn:Hidx.
    + set (st1 := if bool_decide _ then st else _).
      assert (H1 : ∀ i, JsArray.get (heightMap st1) i =
                if decide (index = i) then Some (targetClientHeight entry)
                else JsArray.get (heightMap st) i).
      { intros i. subst st1. case_bool_decide as Heq.
        - case_decide; [by subst|done].
        - cbn [heightMap set_heightMap]. apply get_set. }
      pose proof (compensateScrollForResize_heightMap st1 index
                    (getItemHeight p st index)) as Hc.
      destruct (compensateScrollForResize _ _ _ _ st1 index _)
        as [st2|st2 k|st2]; cbn [step_state] in Hc; [| |done].
      all: intros H; apply IH in H as [Hh ->];
        (split; [|by rewrite orb_true_r]);
        intros i; rewrite Hh, Hc, H1;
        destruct (reported rest i); [done|];
        case_bool_decide; case_decide; simplify_eq; done.
    + intros H; apply IH in H as [Hh ->]. split; [|by rewrite orb_true_r].
      intros i. rewrite Hh. destruct (reported rest i); [done|].
      by rewrite bool_decide_eq_false_2.
Qed.

(** When the resize callback runs to its end, the height map holds, for
    every index, the height last reported for it by a connected element of
    the batch, and is unchanged elsewhere; a recalculation is started
    exactly when the batch has such an element, and a batch without one
    changes nothing. *)
Theorem itemObserver_records_heights st entries v :
  viewport st = Some v →
  match itemObserver scrollTo p assignScrollTop scrollBy st entries with
  | Thrown _ => True
  | (Returned st' | Awaiting st' _) as s =>
      (∀ i, JsArray.get (heightMap st') i =
              match reported entries i with
              | Some h => Some h
              | None => JsArray.get (heightMap st) i
              end)
      ∧ (existsb usable entries = false → s = Returned st)
      ∧ (existsb usable entries = true →
         ∃ st1,
           observe_entries scrollTo p assignScrollTop scrollBy st false
             entries = inl (st1, true)
           ∧ s = recalculateRanges scrollTo p st1)
  end.
Proof.
  intros Hv. unfold itemObserver. rewrite Hv.
  destruct (observe_entries _ _ _ _ st false entries)
    as [[st1 flag]|st1] eqn:Hobs; [|done].
  destruct (observe_entries_records st false entries st1 flag Hobs)
    as [Hh Hflag].
  cbn [orb] in Hflag. subst flag.
  destruct (existsb usable entries) eqn:Hany.
  - pose proof (recalculateRanges_heightMap scrollTo p st1) as Hr.
    destruct (recalculateRanges scrollTo p st1) as [st2|st2 k|st2] eqn:Hrec;
      cbn [step_state] in Hr; [| |done].
    all: split; [by intros i; rewrite Hr, Hh|].
    all: split; [done|]; intros _; exists st1; by rewrite Hrec.
  - split; [done|]. split; [|done]. intros _.
    assert (Hsame : ∀ es s b s' b',
      existsb usable es = false →
      observe_entries scrollTo p assignScrollTop scrollBy s b es
        = inl (s', b') → s' = s).
    { clear. induction es as [|e es IH]; intros s b s' b' Hno Ho.
      - cbn in Ho. by simplify_eq.
      - cbn [existsb] in Hno. apply orb_false_iff in Hno as [He Hes].
        cbn [observe_entries] in Ho. unfold usable in He.
        destruct (isConnected e); cbn [negb andb] in *;
          [|eapply IH; eauto].
        destruct (isHTMLElement e); [done|].
        cbn [negb] in Ho. eapply IH; eauto. }
    f_equal. exact (Hsame entries st false st1 _ Hany Hobs).
Qed.

End ResizeAndScroll.

(** ** What the calculated boundaries are *)

Section Boundaries.

Context {T : Type} (p : Props T).
Implicit Types st : State T.

(** The height the pass of [calculateVisibleRange] adds for index [i]: the
    live height of its row when it is rendered and not [0], else the height
    of the height model. *)
Definition rowOrItemHeight st (i : Z) : Z :=
  js_or (rowClientHeight st (i - r_start (renderRange st)))
    (getItemHeight p st i).

(** The height of the items [0], ..., [i] together. *)
Definition heightThrough st (i : Z) : Z :=
  foldr Z.add 0 (rowOrItemHeight st <$> seqZ 0 (i + 1)).

Lemma heightThrough_step st i :
  0 ≤ i → heightThrough st i = heightThrough st (i - 1) + rowOrItemHeight st i.
Proof.
  intros Hi. unfold heightThrough.
  replace (i + 1) with (Z.of_nat (S (Z.to_nat i))) by lia.
  rewrite seqZ_S, fmap_app, foldr_app. cbn [fmap list_fmap foldr].
  replace (i - 1 + 1) with (Z.of_nat (Z.to_nat i)) by lia.
  replace (0 + Z.of_nat (Z.to_nat i)) with i by lia.
  generalize (rowOrItemHeight st <$> seqZ 0 (Z.of_nat (Z.to_nat i))) as l.
  generalize (rowOrItemHeight st i) as x.
  intros x l. induction l as [|y l IH]; cbn; lia.
Qed.

(** A loop variable that records the first index whose cumulative height
    satisfies [P], stored with the shift [d], and [-1] until then. *)
Definition tracked st (d : Z) (P : Z → Prop) (i x : Z) : Prop :=
  (x = -1 ∧ ∀ j, 0 ≤ j < i → ¬ P (heightThrough st j))
  ∨ (0 ≤ x - d < i ∧ P (heightThrough st (x - d))
     ∧ ∀ j, 0 ≤ j < x - d → ¬ P (heightThrough st j)).

Lemma tracked_step st d P i x (b : bool) :
  0 ≤ i → 0 ≤ d →
  (b = true ↔ P (heightThrough st i)) →
  tracked st d P i x →
  tracked st d P (i + 1) (if (x =? -1) && b then i + d else x).
Proof.
  intros Hi Hd Hb [[-> Hnone]|(Hx & HP & Hnone)].
  - rewrite Z.eqb_refl. cbn [andb]. destruct b.
    + right. replace (i + d - d) with i by lia.
      split; [lia|]. split; [by apply Hb | done].
    + left. split; [done|]. intros j Hj.
      destruct (decide (j = i)) as [->|Hne]; [|apply Hnone; lia].
      intros HP. apply Hb in HP. done.
  - replace (x =? -1) with false by (symmetry; apply Z.eqb_neq; lia).
    cbn [andb]. right. split; [lia | done].
Qed.

Lemma tracked_found st d P i x :
  P (heightThrough st (i - 1)) → 0 < i → tracked st d P i x →
  (∀ j, 0 ≤ j < x - d → ¬ P (heightThrough st j))
  ∧ P (heightThrough st (x - d)) ∧ 0 ≤ x - d < i.
Proof.
  intros HP Hi [[-> Hnone]|(Hx & HP' & Hnone)]; [|done].
  exfalso. apply (Hnone (i - 1)); [lia | done].
Qed.

Lemma tracked_end st d P i x fallback :
  0 ≤ d → fallback - d ≤ i → tracked st d P i x →
  let x' := if x =? -1 then fallback else x in
  (∀ j, 0 ≤ j < x' - d → ¬ P (heightThrough st j))
  ∧ (P (heightThrough st (x' - d)) ∨ x' = fallback).
Proof.
  intros Hd Hf [[-> Hnone]|(Hx & HP & Hnone)]; cbv zeta.
  - rewrite Z.eqb_refl. split; [|by right]. intros j Hj. apply Hnone. lia.
  - replace (x =? -1) with false by (symmetry; apply Z.eqb_neq; lia).
    split; [done | by left].
Qed.

(** The four boundaries as first indices. *)
Definition first_indices st (v : Viewport) (count : Z) (r : VisibleRange)
    : Prop :=
  let reachesTop h := scrollTop v - renderDistance p ≤ h in
  let entersView h := scrollTop v + 1 ≤ h in
  let leavesView h := scrollTop v + clientHeight v < h in
  let leavesRender h :=
    scrollTop v + clientHeight v + renderDistance p < h in
  (∀ j, 0 ≤ j < renderStart r → ¬ reachesTop (heightThrough st j))
  ∧ (reachesTop (heightThrough st (renderStart r))
     ∨ renderStart r = count - 1)
  ∧ (∀ j, 0 ≤ j < visibleStart r → ¬ entersView (heightThrough st j))
  ∧ (entersView (heightThrough st (visibleStart r))
     ∨ visibleStart r = count - 1)
  ∧ (∀ j, 0 ≤ j < visibleEnd r - 1 → ¬ leavesView (heightThrough st j))
  ∧ (leavesView (heightThrough st (visibleEnd r - 1))
     ∨ visibleEnd r = count)
  ∧ (∀ j, 0 ≤ j < renderEnd r - 1 → ¬ leavesRender (heightThrough st j))
  ∧ (leavesRender (heightThrough st (renderEnd r - 1))
     ∨ renderEnd r = count).

Lemma range_loop_first_indices st v count n i rs vs ve acc :
  0 ≤ renderDistance p →
  0 ≤ clientHeight v →
  0 ≤ i →
  count = i + Z.of_nat n →
  acc = heightThrough st (i - 1) →
  tracked st 0 (λ h, scrollTop v - renderDistance p ≤ h) i rs →
  tracked st 0 (λ h, scrollTop v + 1 ≤ h) i vs →
  tracked st 1 (λ h, scrollTop v + clientHeight v < h) i ve →
  (∀ j, 0 ≤ j < i →
        ¬ scrollTop v + clientHeight v + renderDistance p
          < heightThrough st j) →
  first_indices st v count
    (range_loop p st count (scrollTop v) (scrollTop v + clientHeight v)
       n i rs vs ve acc).
Proof.
  intros Hrd Hch. revert i rs vs ve acc.
  induction n as [|n IH]; intros i rs vs ve acc Hi Hn Hacc Hrs Hvs Hve Hret.
  - cbn [range_loop]. unfold first_indices.
    cbn [renderStart renderEnd visibleStart visibleEnd].
    replace count with i by lia.
    destruct (tracked_end st 0 _ i rs (i - 1) ltac:(lia) ltac:(lia) Hrs)
      as [? ?].
    destruct (tracked_end st 0 _ i vs (i - 1) ltac:(lia) ltac:(lia) Hvs)
      as [? ?].
    destruct (tracked_end st 1 _ i ve i ltac:(lia) ltac:(lia) Hve) as [? ?].
    rewrite !Z.sub_0_r in *.
    split_and!; try done; [|by right].
    intros j Hj. apply Hret. lia.
  - cbn [range_loop].
    fold (rowOrItemHeight st i). rewrite Hacc, <- heightThrough_step by done.
    set (h := heightThrough st i).
    assert (Hrs' := tracked_step st 0 _ i rs
      (scrollTop v - renderDistance p <=? h) Hi ltac:(lia)
      ltac:(apply Z.leb_le) Hrs).
    assert (Hvs' := tracked_step st 0 _ i vs
      (scrollTop v + 1 <=? h) Hi ltac:(lia) ltac:(apply Z.leb_le) Hvs).
    assert (Hve' := tracked_step st 1 _ i ve
      (scrollTop v + clientHeight v <? h) Hi ltac:(lia)
      ltac:(apply Z.ltb_lt) Hve).
    fold h in Hrs', Hvs', Hve'. rewrite Z.add_0_r in Hrs', Hvs'.
    destruct (scrollTop v + clientHeight v + renderDistance p <? h) eqn:Hleave.
    + apply Z.ltb_lt in Hleave. unfold first_indices.
      cbn [renderStart renderEnd visibleStart visibleEnd].
      replace (i + 1 - 1) with i by lia.
      assert (Hlast : heightThrough st (i + 1 - 1) = h)
        by (by replace (i + 1 - 1) with i by lia).
      destruct (tracked_found st 0
                  (λ h0, scrollTop v - renderDistance p ≤ h0) (i + 1) _
                  ltac:(rewrite Hlast; lia) ltac:(lia) Hrs') as (? & ? & ?).
      destruct (tracked_found st 0 (λ h0, scrollTop v + 1 ≤ h0) (i + 1) _
                  ltac:(rewrite Hlast; lia) ltac:(lia) Hvs') as (? & ? & ?).
      destruct (tracked_found st 1
                  (λ h0, scrollTop v + clientHeight v < h0) (i + 1) _
                  ltac:(rewrite Hlast; lia) ltac:(lia) Hve') as (? & ? & ?).
      rewrite !Z.sub_0_r in *.
      split_and!; first [done | by left | left; fold h; lia].
    + apply Z.ltb_ge in Hleave.
      apply IH; try done; try lia.
      * by replace (i + 1 - 1) with i by lia.
      * intros j Hj. destruct (decide (j = i)) as [->|Hne];
          [fold h; lia | apply Hret; lia].
Qed.

(** On integer pixel quantities, with a viewport, at least one item, and a
    render distance and viewport height that are not negative, each
    boundary is a first index of the single pass: [renderStart] is the first item whose cumulative height
    reaches [scrollTop - renderDistance], [visibleStart] the first one that
    reaches [scrollTop + 1], [visibleEnd] is one past the first item whose
    cumulative height exceeds the viewport bottom, and [renderEnd] one past
    the first that exceeds the viewport bottom plus the render distance;
    where no item qualifies, the boundary is the last item, respectively
    the end of the list. *)
Theorem calculateVisibleRange_first_indices st its v :
  items p = Some its →
  its ≠ [] →
  viewport st = Some v →
  0 ≤ renderDistance p →
  0 ≤ clientHeight v →
  ∃ r,
    calculateVisibleRange p st = Some r
    ∧ first_indices st v (zlength its) r.
Proof.
  intros Hitems Hne Hv Hrd Hch. unfold calculateVisibleRange.
  rewrite Hitems, Hv.
  assert (Hpos : 0 < zlength its).
  { unfold zlength. destruct its; [done|]. cbn [length]. lia. }
  destruct (zlength its =? 0) eqn:E; [apply Z.eqb_eq in E; lia|].
  eexists; split; [done|].
  apply range_loop_first_indices; try done; try (unfold zlength; lia).
  all: left; split; [done|]; intros j Hj; lia.
Qed.

End Boundaries.

(** ** What every entry point keeps *)

Section KeptInvariants.

Context {T : Type} (scrollTo : Viewport → Z → Viewport) (p : Props T).
Implicit Types st : State T.

Lemma locks_consistent_ext st st' :
  lockedHeights st' = lockedHeights st →
  heightUnlockTimeouts st' = heightUnlockTimeouts st →
  timers st' = timers st →
  nextTimerId st' = nextTimerId st →
  locks_consistent st → locks_consistent st'.
Proof.
  unfold locks_consistent. intros -> -> -> ->. done.
Qed.

Lemma lockIfMeasured_consistent st i :
  locks_consistent st → locks_consistent (lockIfMeasured st i).
Proof.
  unfold lockIfMeasured. destruct (JsArray.get (heightMap st) i); [|done].
  apply lockRowHeight_consistent.
Qed.

Lemma lock_loop_consistent st n i :
  locks_consistent st → locks_consistent (lock_loop st n i).
Proof.
  revert st i. induction n as [|n IH]; intros st i Hc; [done|].
  cbn [lock_loop]. apply IH. case_match; [|done].
  by apply lockRowHeight_consistent.
Qed.

(** Peels the writes that leave the locks and timers alone off a goal
    [locks_consistent _], and the locking steps with their lemmas. *)
Ltac keep_locks :=
  repeat first
    [ assumption
    | apply lock_loop_consistent
    | apply lockIfMeasured_consistent
    | apply lockRowHeight_consistent
    | match goal with
      | |- locks_consistent (?f ?v ?s) =>
          apply (locks_consistent_ext s); [done | done | done | done |]
      end ].

Lemma initializeAt_consistent st startingAt :
  locks_consistent st →
  locks_consistent (step_state (initializeAt p st startingAt)).
Proof.
  intros Hc. unfold initializeAt.
  repeat case_match; cbn [step_state]; keep_locks.
Qed.

Lemma recalculateRanges_finish_consistent st distance vs ve :
  locks_consistent st →
  locks_consistent (recalculateRanges_finish scrollTo p st distance vs ve).
Proof.
  intros Hc. unfold recalculateRanges_finish, debouncedLoadMore, scrollToBottom.
  repeat case_match; keep_locks.
Qed.

Lemma recalculateRanges_consistent st :
  locks_consistent st →
  locks_consistent (step_state (recalculateRanges scrollTo p st)).
Proof.
  intros Hc.
  unfold recalculateRanges, recalculateRanges_apply, recalculateRanges_replace.
  repeat case_match; cbn [step_state];
    try apply recalculateRanges_finish_consistent; keep_locks.
Qed.

(** The consistency of locks and timers is kept by taking a lock, by the
    expiry of a timer, and by every entry point of the component that can
    take a lock: a jump, a pass of [recalculateRanges] and its resumption,
    the scroll handler, and the reconciliation with a changed list, each up
    to where it returns or waits. *)
Theorem locks_consistent_kept st :
  locks_consistent st →
  (∀ index, locks_consistent (lockRowHeight st index))
  ∧ (∀ id, locks_consistent (unlockRowHeight id st))
  ∧ (∀ index, locks_consistent (jumpToIndex p st index))
  ∧ locks_consistent (step_state (recalculateRanges scrollTo p st))
  ∧ (∀ k, locks_consistent (recalculateRanges_resume scrollTo p st k))
  ∧ locks_consistent (step_state (onscroll scrollTo p st))
  ∧ (∀ countDelta headChanged tailChanged,
       locks_consistent
         (step_state
            (handleItemsChanged p st countDelta headChanged tailChanged))).
Proof.
  intros Hc. split_and!.
  - intros index. by apply lockRowHeight_consistent.
  - intros id. by apply unlockRowHeight_consistent.
  - intros index. unfold jumpToIndex.
    destruct (items p) as [its|]; [|done].
    destruct ((index <? 0) || (zlength its - 1 <? index)); [done|].
    apply initializeAt_consistent. keep_locks.
  - by apply recalculateRanges_consistent.
  - intros k. unfold recalculateRanges_resume.
    case_match; try done. by apply recalculateRanges_finish_consistent.
  - unfold onscroll.
    destruct (viewport st) as [v|] eqn:Hv; [|done].
    destruct (skipNextScrollEvent st); cbn [step_state]; [keep_locks|].
    apply recalculateRanges_consistent. unfold updateScrollDirection.
    rewrite Hv. keep_locks.
  - intros countDelta headChanged tailChanged.
    unfold handleItemsChanged, updateHeightMap, handleItemsAdded,
      handleItemsRemovedOrReplaced.
    repeat case_match; simplify_eq; rewrite ?step_state_await_call;
      cbn [step_state]; try apply initializeAt_consistent; keep_locks.
Qed.

(** After a pass that replaces the render range, on a list that is not
    empty and a height map as long as the list: the new range is the
    calculated one, the height map is as it was, the range is a non-empty
    range of the list, and the two paddings are what [calculateHeightSum]
    gives below the range and from its end to the end of the list. *)
Theorem recalculateRanges_offsets_total st st' k its v :
  recalculateRanges scrollTo p st = Awaiting st' k →
  items p = Some its →
  its ≠ [] →
  viewport st = Some v →
  JsArray.len (heightMap st) = zlength its →
  0 ≤ renderDistance p →
  0 ≤ clientHeight v →
  (∃ r, calculateVisibleRange p st = Some r
        ∧ renderRange st' = mkRange (renderStart r) (renderEnd r))
  ∧ heightMap st' = heightMap st
  ∧ 0 ≤ r_start (renderRange st')
  ∧ r_start (renderRange st') < r_end (renderRange st')
  ∧ r_end (renderRange st') ≤ zlength its
  ∧ top (offset st')
    = calculateHeightSum p st' 0 (r_start (renderRange st'))
  ∧ bottom (offset st')
    = calculateHeightSum p st' (r_end (renderRange st')) (zlength its).
Proof.
  intros Hres Hitems Hne Hv Hlen Hrd Hch.
  destruct (recalculateRanges_applies_range scrollTo p st st' k Hres)
    as (r & Hcalc & Hrange & _ & _ & Htop & Hbot & Hhm & _).
  assert (Hpos : 0 < zlength its).
  { unfold zlength. destruct its; [done|]. cbn [length]. lia. }
  assert (Hord : ordered_within r (zlength its)
                 ∧ renderStart r < renderEnd r).
  { unfold calculateVisibleRange in Hcalc. rewrite Hitems, Hv in Hcalc.
    replace (zlength its =? 0) with false in Hcalc
      by (symmetry; apply Z.eqb_neq; lia).
    simplify_eq. split.
    - apply range_loop_ordered; unfold zlength in *; try lia.
      unfold loop_inv. lia.
    - apply range_loop_nonempty; unfold zlength in *; lia. }
  destruct Hord as [(H0 & H1 & H2 & H3 & H4) Hlt].
  split; [by exists r|]. split; [done|].
  rewrite Hrange. cbn [r_start r_end].
  split; [done|]. split; [done|]. split; [lia|].
  rewrite !calculateHeightSum_sumRange, Htop, Hbot, Hhm, Hlen. done.
Qed.

(** Once the list is empty, a pass on an initialized component puts the
    empty render range in place (the guard against degenerate ranges only
    holds for a list with items), so the component counts as not
    initialized again; the top padding is then [0]. *)
Theorem recalculateRanges_empty_list st v rows :
  items p = Some [] →
  viewport st = Some v →
  visibleRowElements st = Some rows →
  isInitialized st = true →
  isRecalculating st = false →
  ∃ st',
    recalculateRanges scrollTo p st
      = Awaiting st' (RecalcTick (getDistanceFromBottom st) 0 0)
    ∧ renderRange st' = mkRange 0 0
    ∧ isInitialized st' = false
    ∧ top (offset st') = 0.
Proof.
  intros Hitems Hv Hrows Hinit Hflag.
  assert (Hres : ∃ st',
    recalculateRanges scrollTo p st
      = Awaiting st' (RecalcTick (getDistanceFromBottom st) 0 0)).
  { unfold recalculateRanges. rewrite Hv, Hrows, Hinit, Hflag.
    cbn [negb orb]. unfold calculateVisibleRange. rewrite Hitems.
    change (zlength (@nil T)) with 0. cbn [Z.eqb].
    unfold recalculateRanges_apply.
    cbn [renderStart renderEnd visibleStart visibleEnd renderRange
         set_isRecalculating].
    unfold isInitialized in Hinit. apply negb_true_iff in Hinit.
    rewrite (Z.eqb_sym 0 (r_end (renderRange st))), Hinit, orb_true_r.
    rewrite Hitems. change (zlength (@nil T)) with 0. cbn [Z.leb Z.ltb Z.compare].
    unfold recalculateRanges_replace. by eexists. }
  destruct Hres as [s Hres].
  destruct (recalculateRanges_applies_range scrollTo p st s _ Hres)
    as (r & Hcalc & Hrange & _ & _ & Htop & _).
  unfold calculateVisibleRange in Hcalc. rewrite Hitems in Hcalc.
  change (zlength (@nil T)) with 0 in Hcalc. cbn [Z.eqb] in Hcalc.
  simplify_eq. cbn [renderStart renderEnd] in *.
  exists s. split; [done|]. split; [done|].
  unfold isInitialized. rewrite Hrange. split; [done|].
  rewrite Htop. unfold sumRange. by rewrite seqZ_nil.
Qed.

End KeptInvariants.

(** * Worked states

    Concrete lists, viewports and height maps on which the functions are
    run.  Items are given by a number. *)

(** A host that clamps the requested offset to the scrollable extent. *)
Definition clampScrollTo (v : Viewport) (target : Z) : Viewport :=
  mkViewport
    (Z.max 0 (Z.min target (scrollHeight v - clientHeight v)))
    (scrollHeight v) (clientHeight v).

(** The component right after creation: nothing measured, nothing rendered,
    no viewport bound yet. *)
Definition fresh : State nat :=
  mkState None None [] JsArray.empty JsArray.empty JsArray.empty
    (mkRange 0 0) (mkRange 0 0) (mkOffset 0 0) 0 false false
    None None None false ∅ 1 0.

(** Five items of default height 50, render distance 10, with a fetch
    callback. *)
Definition feed_items : list nat := [101; 102; 103; 104; 105]%nat.

Definition feed_props : Props nat :=
  mkProps (Some feed_items) true 50 false None 10.

(** A viewport of height 100 scrolled to 60; item 1 was measured at 30;
    rows 1 and 2 are rendered. *)
Definition feed_state : State nat :=
  set_viewport (Some (mkViewport 60 230 100))
    (set_heightMap (JsArray.set (JsArray.new 5) 1 30)
       (set_renderRange (mkRange 1 3) fresh)).

(** The same state once the viewport is gone (teardown). *)
Definition torn_state : State nat := set_viewport None feed_state.

Example feed_calculateVisibleRange :
  calculateVisibleRange feed_props feed_state
    = Some (mkVisibleRange 0 4 1 4).
Proof. reflexivity. Qed.

Lemma calculateVisibleRange_ordered_witness :
  ∃ r, calculateVisibleRange feed_props feed_state = Some r
       ∧ ordered_within r 5.
Proof.
  apply (calculateVisibleRange_ordered feed_props feed_state feed_items).
  - reflexivity.
  - simpl. lia.
  - simpl. lia.
Defined.

Example feed_updateOffsets :
  offset (updateOffsets feed_props feed_state) = mkOffset 50 100.
Proof. reflexivity. Qed.

Lemma updateOffsets_partition_witness :
  let st' := updateOffsets feed_props feed_state in
  let range := renderRange st' in
  top (offset st') = calculateHeightSum feed_props st' 0 (r_start range)
  ∧ bottom (offset st')
    = calculateHeightSum feed_props st' (r_end range) 5
  ∧ top (offset st')
      + calculateHeightSum feed_props st' (r_start range) (r_end range)
      + bottom (offset st')
    = sumRange feed_props st' 0 5.
Proof.
  apply (updateOffsets_partition feed_props feed_state feed_items).
  - reflexivity.
  - reflexivity.
  - simpl. lia.
  - simpl. lia.
  - unfold zlength. simpl. lia.
Defined.

(** *** Fractional pixel quantities *)

Section Fractions.

Import PrimFloat.

(** Three unmeasured items of default height 40. *)
Definition rows_of_40 : Binary64.Heights := Binary64.mkHeights 40%float ∅ 3.

(** A viewport without height, scrolled to 39.5. *)
Definition collapsed_view : Binary64.View :=
  Binary64.mkView 39.5%float 0%float.

(** C1 at a scroll offset with a fraction.  For three items of height 40, a
    viewport of height 0 scrolled to 39.5 and a render distance of 0, all
    of them non-negative, [calculateVisibleRange] returns through the
    [return] inside its loop at item 0: the accumulated height 40 exceeds
    the viewport bottom 39.5 but has not reached [scrollTop + 1 = 40.5], so
    [visibleStart] still is the [-1] it was initialised with, and the
    boundaries [{0, 1, -1, 1}] break the chain
    [0 ≤ renderStart ≤ visibleStart ≤ visibleEnd ≤ renderEnd ≤ items.length]
    at [renderStart ≤ visibleStart].  The [return] after the loop replaces
    a [-1]; the one inside the loop does not. *)
Theorem calculateVisibleRange_fractional_scroll :
  Binary64.calculateVisibleRange rows_of_40 0%float None 0 3
    (Some collapsed_view)
  = mkVisibleRange 0 1 (-1) 1
  ∧ ¬ ordered_within
        (Binary64.calculateVisibleRange rows_of_40 0%float None 0 3
           (Some collapsed_view))
        3.
Proof.
  assert (Hrun :
    Binary64.calculateVisibleRange rows_of_40 0%float None 0 3
      (Some collapsed_view)
    = mkVisibleRange 0 1 (-1) 1) by reflexivity.
  split; [exact Hrun|].
  rewrite Hrun. unfold ordered_within. cbn. lia.
Qed.

(** At the next integer offset the same pass finds every boundary. *)
Example calculateVisibleRange_whole_scroll :
  Binary64.calculateVisibleRange rows_of_40 0%float None 0 3
    (Some (Binary64.mkView 39%float 0%float))
  = mkVisibleRange 0 1 0 1.
Proof. reflexivity. Qed.

(** Six unmeasured items of default height 33.3. *)
Definition rows_of_33_3 : Binary64.Heights :=
  Binary64.mkHeights (333 / 10)%float ∅ 6.

(** C2 as stated fails on heights with a fraction.  For six items of height
    33.3 and the render range [{0, 2}], the top padding, the heights of the
    rendered items and the bottom padding add up to 199.79999999999998,
    while the height sum over all items is 199.8 (the double next
    above). *)
Lemma updateOffsets_rounding :
  (fst (Binary64.updateOffsets rows_of_33_3 (mkRange 0 2))
   + Binary64.calculateHeightSum rows_of_33_3 0 2
   + snd (Binary64.updateOffsets rows_of_33_3 (mkRange 0 2)))%float
  ≠ Binary64.calculateHeightSum rows_of_33_3 0 6.
Proof.
  intros Heq.
  apply (f_equal
           (λ x, PrimFloat.eqb x (Binary64.calculateHeightSum rows_of_33_3 0 6)))
    in Heq.
  vm_compute in Heq. discriminate Heq.
Qed.

(** By how much: one unit in the last place. *)
Example updateOffsets_rounding_values :
  (fst (Binary64.updateOffsets rows_of_33_3 (mkRange 0 2))
   + Binary64.calculateHeightSum rows_of_33_3 0 2
   + snd (Binary64.updateOffsets rows_of_33_3 (mkRange 0 2)))%float
  = PrimFloat.next_down (Binary64.calculateHeightSum rows_of_33_3 0 6)
  ∧ Binary64.calculateHeightSum rows_of_33_3 0 6 = (1998 / 10)%float.
Proof. split; reflexivity. Qed.

(** On the integer heights of the feed the two embeddings agree. *)
Definition feed_heights : Binary64.Heights :=
  Binary64.mkHeights 50%float (<[1 := 30%float]> ∅) 5.

Example feed_on_doubles :
  Binary64.updateOffsets feed_heights (mkRange 1 3) = (50%float, 100%float)
  ∧ offset (updateOffsets feed_props feed_state) = mkOffset 50 100
  ∧ Binary64.calculateVisibleRange feed_heights 10%float None 0 5
      (Some (Binary64.mkView 60%float 100%float))
    = mkVisibleRange 0 4 1 4
  ∧ calculateVisibleRange feed_props feed_state
    = Some (mkVisibleRange 0 4 1 4).
Proof. split_and!; reflexivity. Qed.

End Fractions.

(** Two measured items, then three items are prepended. *)
Definition two_measured : State nat :=
  mkState None None [104; 105]%nat
    (JsArray.set (JsArray.set (JsArray.new 2) 0 40) 1 30)
    JsArray.empty JsArray.empty
    (mkRange 0 2) (mkRange 0 2) (mkOffset 0 0) 0 false false
    None None None false ∅ 1 0.

Example prepend_shifts_heights :
  ∃ st', updateHeightMap feed_props two_measured 3 true false = Some st'
         ∧ JsArray.get (heightMap st') 3 = Some 40
         ∧ JsArray.get (heightMap st') 4 = Some 30
         ∧ JsArray.get (heightMap st') 0 = None
         ∧ JsArray.len (heightMap st') = 5.
Proof. eexists. repeat split; reflexivity. Qed.

Lemma updateHeightMap_prepend_witness :
  ∃ st',
    updateHeightMap feed_props two_measured 3 true false = Some st'
    ∧ (∀ i h, 0 ≤ i < 2 →
         JsArray.get (heightMap two_measured) i = Some h →
         JsArray.get (heightMap st') (i + 3) = Some h)
    ∧ (∀ j h, JsArray.get (heightMap st') j = Some h →
         ∃ i, 0 ≤ i < 2 ∧ j = i + 3
              ∧ JsArray.get (heightMap two_measured) i = Some h)
    ∧ JsArray.len (heightMap st') = 5.
Proof.
  apply (updateHeightMap_prepend feed_props two_measured feed_items 3).
  - reflexivity.
  - lia.
  - reflexivity.
Defined.

(** Item 0 of [two_measured] gets locked; before the lock expires the list
    is replaced as a whole by the five items of the feed. *)
Definition two_locked : State nat := lockRowHeight two_measured 0.

Lemma updateHeightMap_full_replacement_witness :
  ∃ st',
    updateHeightMap feed_props two_locked 3 true true = Some st'
    ∧ JsArray.len (heightMap st') = 5
    ∧ (∀ i, JsArray.get (heightMap st') i = None)
    ∧ renderRange st' = mkRange 0 0
    ∧ isInitialized st' = false
    ∧ lockedHeights st' = lockedHeights two_locked
    ∧ heightUnlockTimeouts st' = heightUnlockTimeouts two_locked
    ∧ timers st' = timers two_locked
    ∧ (feed_items ≠ [] →
       handleItemsChanged feed_props two_locked 3 true true =
         await_call (initializeAt feed_props st' 0)).
Proof.
  apply (updateHeightMap_full_replacement feed_props two_locked feed_items 3).
  - reflexivity.
  - discriminate.
Defined.

(** C4 as stated fails: after the full replacement the lock taken on the
    old item 0 is still there, and still sets the height of the row now
    rendered at index 0. *)
Lemma full_replacement_keeps_locked_heights :
  ∃ st',
    updateHeightMap feed_props two_locked 3 true true = Some st'
    ∧ JsArray.get (lockedHeights st') 0 = Some 40
    ∧ rowStyleHeight st' 0 = Some 40
    ∧ ¬ (∀ i, JsArray.get (lockedHeights st') i = None).
Proof.
  eexists. split; [reflexivity|]. split; [reflexivity|].
  split; [reflexivity|]. intros Hnone. by specialize (Hnone 0).
Qed.

(** Without a viewport the calculation yields the empty range; with one it
    does not, so the guard is shown on ranges handed to it directly. *)
Example torn_calculateVisibleRange :
  calculateVisibleRange feed_props torn_state = Some (mkVisibleRange 0 0 0 0).
Proof. reflexivity. Qed.

Example feed_rejects_inverted_range :
  recalculateRanges_apply clampScrollTo feed_props feed_state 1 3 70
    (mkVisibleRange 4 2 4 2)
  = Returned (set_isRecalculating false feed_state).
Proof. reflexivity. Qed.

Lemma recalculateRanges_keeps_range_on_degenerate_witness :
  (∃ st',
     recalculateRanges clampScrollTo feed_props torn_state = Returned st'
     ∧ renderRange st' = mkRange 1 3)
  ∧ (∃ st',
       recalculateRanges_apply clampScrollTo feed_props feed_state 1 3 70
         (mkVisibleRange 4 2 4 2) = Returned st'
       ∧ renderRange st' = mkRange 1 3).
Proof.
  split.
  - destruct (recalculateRanges_keeps_range_on_degenerate clampScrollTo
                feed_props torn_state feed_items) as [Hpass _];
      [reflexivity | discriminate | reflexivity |].
    apply (Hpass (mkVisibleRange 0 0 0 0)); [reflexivity | simpl; lia].
  - destruct (recalculateRanges_keeps_range_on_degenerate clampScrollTo
                feed_props feed_state feed_items) as [_ Hguard];
      [reflexivity | discriminate | reflexivity |].
    apply (Hguard (mkVisibleRange 4 2 4 2) 1 3 70). simpl. lia.
Defined.

(** Item 1 of [two_measured] gets locked at its measured height 30; before
    the lock expires one item is prepended, which moves the measured
    heights up by one and leaves the lock where it was. *)
Definition grown_props : Props nat :=
  mkProps (Some [103; 104; 105]%nat) true 50 false None 10.

Definition prepended_locked : State nat :=
  default two_measured
    (updateHeightMap grown_props (lockRowHeight two_measured 1) 1 true false).

(** C6 as stated fails: with a lock of 30 present at index 1,
    [getItemHeight] returns the measured height 40 stored there, not the
    locked one. *)
Lemma getItemHeight_ignores_lock :
  updateHeightMap grown_props (lockRowHeight two_measured 1) 1 true false
    = Some prepended_locked
  ∧ JsArray.get (lockedHeights prepended_locked) 1 = Some 30
  ∧ JsArray.get (heightMap prepended_locked) 1 = Some 40
  ∧ getItemHeight grown_props prepended_locked 1 = 40
  ∧ spec_HeightModel_get grown_props prepended_locked 1 = 30
  ∧ getItemHeight grown_props prepended_locked 1
    ≠ spec_HeightModel_get grown_props prepended_locked 1.
Proof. repeat split; try reflexivity. discriminate. Qed.

(** C7 as stated fails: a jump to index 4 of the five items, with nothing
    measured and no viewport, records the jump but neither locks a height
    at 4 nor moves the render range to 4. *)
Lemma jumpToIndex_without_viewport :
  let st' := jumpToIndex feed_props fresh 4 in
  lastJumpToIndex st' = Some 4
  ∧ skipNextScrollEvent st' = true
  ∧ renderRange st' = mkRange 0 0
  ∧ JsArray.get (lockedHeights st') 4 = None
  ∧ ¬ (r_start (renderRange st') = 4
       ∧ is_Some (JsArray.get (lockedHeights st') 4)).
Proof.
  cbv zeta. repeat split; try reflexivity.
  intros [Hstart _]. discriminate Hstart.
Qed.

Example jumpToIndex_out_of_range :
  jumpToIndex feed_props feed_state 5 = feed_state
  ∧ jumpToIndex feed_props feed_state (-1) = feed_state
  ∧ jumpToIndex (mkProps None true 50 false None 10) feed_state 0
    = feed_state.
Proof. repeat split; reflexivity. Qed.

Example jumpToIndex_in_range :
  let st' := jumpToIndex feed_props feed_state 1 in
  lastScrollDirection st' = None
  ∧ skipNextScrollEvent st' = true
  ∧ lastJumpToIndex st' = Some 1
  ∧ JsArray.get (lockedHeights st') 1 = Some 30
  ∧ renderRange st' = mkRange 1 2.
Proof. cbv zeta. repeat split; reflexivity. Qed.

(** Item 1 is measured at height 0. *)
Definition collapsed : State nat :=
  set_heightMap (JsArray.set (JsArray.new 5) 1 0)
    (set_renderRange (mkRange 2 4) fresh).

Example collapsed_offsets :
  offset (updateOffsets feed_props collapsed) = mkOffset 100 50.
Proof. reflexivity. Qed.

Lemma getItemHeight_zero_is_default_witness :
  getItemHeight feed_props collapsed 1 = 50
  ∧ calculateHeightSum feed_props collapsed 0 3 =
      calculateHeightSum feed_props collapsed 0 1 + 50
      + calculateHeightSum feed_props collapsed 2 3
  ∧ top (offset (updateOffsets feed_props collapsed)) =
      calculateHeightSum feed_props collapsed 0 1 + 50
      + calculateHeightSum feed_props collapsed 2 2.
Proof.
  destruct (getItemHeight_zero_is_default feed_props collapsed 1)
    as (Hget & Hsum & Htop & _); [reflexivity|].
  split; [exact Hget|]. split.
  - apply (Hsum 0 3). lia.
  - apply Htop. simpl. lia.
Defined.

Lemma lockRowHeight_unmeasured_noop_witness :
  lockRowHeight collapsed 1 = collapsed
  ∧ lockRowHeight collapsed 3 = collapsed.
Proof.
  split.
  - apply (lockRowHeight_unmeasured_noop collapsed 1). right. reflexivity.
  - apply (lockRowHeight_unmeasured_noop collapsed 3). left. reflexivity.
Defined.

Example lockRowHeight_measured :
  let st' := lockRowHeight two_measured 0 in
  JsArray.get (lockedHeights st') 0 = Some 40
  ∧ JsArray.get (heightUnlockTimeouts st') 0 = Some 1
  ∧ timers st' !! 1 = Some 0
  ∧ lockedHeights (unlockRowHeight 1 st') = JsArray.mk ∅ 1.
Proof. cbv zeta. repeat split; reflexivity. Qed.

Example feed_shouldTriggerLoadMore :
  shouldTriggerLoadMore feed_props feed_state = true
  ∧ shouldTriggerLoadMore feed_props torn_state = false.
Proof. split; reflexivity. Qed.

(** ** Further worked states *)

(** Hosts for [scrollTop = value] and [scrollBy], clamping like
    [clampScrollTo]. *)
Definition clampAssign (v : Viewport) (value : Z) : Viewport :=
  clampScrollTo v value.

Definition clampScrollBy (v : Viewport) (delta : option Z) : Viewport :=
  match delta with
  | Some d => clampScrollTo v (scrollTop v + d)
  | None => v
  end.

(** Items are identified by their number; every item is truthy. *)
Definition feed_getId (n : nat) : option string := Some (pretty n).
Definition feed_truthy (n : nat) : bool := true.

(** [feed_state] with its two rows in the document (heights 30 and 50),
    the paddings set, and the list already seen by the effect. *)
Definition feed_rendered : State nat :=
  mkState (Some (mkViewport 60 230 100)) (Some [30; 50]) feed_items
    (JsArray.set (JsArray.new 5) 1 30) JsArray.empty JsArray.empty
    (mkRange 1 3) (mkRange 1 3) (mkOffset 50 100) 70 false false
    None None None false ∅ 1 0.

(** Where the pass on [feed_rendered] waits. *)
Definition feed_waiting : State nat :=
  step_state (recalculateRanges clampScrollTo feed_props feed_rendered).

Example feed_rendered_pass :
  recalculateRanges clampScrollTo feed_props feed_rendered
    = Awaiting feed_waiting (RecalcTick 70 1 4)
  ∧ renderRange feed_waiting = mkRange 0 4
  ∧ offset feed_waiting = mkOffset 0 50.
Proof. repeat split; reflexivity. Qed.

Lemma calculateVisibleRange_first_indices_witness :
  ∃ r, calculateVisibleRange feed_props feed_rendered = Some r
       ∧ first_indices feed_props feed_rendered (mkViewport 60 230 100) 5 r.
Proof.
  apply (calculateVisibleRange_first_indices feed_props feed_rendered
           feed_items).
  - reflexivity.
  - discriminate.
  - reflexivity.
  - simpl. lia.
  - simpl. lia.
Defined.

Lemma calculateVisibleRange_nonempty_witness :
  renderStart (mkVisibleRange 0 4 1 4) < renderEnd (mkVisibleRange 0 4 1 4).
Proof.
  apply (calculateVisibleRange_nonempty feed_props feed_rendered feed_items
           (mkViewport 60 230 100)).
  - reflexivity.
  - discriminate.
  - reflexivity.
  - reflexivity.
Defined.


Lemma calculateHeightSum_monotone_witness :
  0 ≤ calculateHeightSum feed_props feed_state 1 3
  ∧ calculateHeightSum feed_props feed_state 1 3
    ≤ calculateHeightSum feed_props feed_state 0 5
  ∧ 0 ≤ top (offset (updateOffsets feed_props feed_state))
  ∧ 0 ≤ bottom (offset (updateOffsets feed_props feed_state)).
Proof.
  apply (calculateHeightSum_monotone feed_props feed_state 1 3 0 5).
  - simpl. lia.
  - intros j h. unfold JsArray.get. simpl. rewrite lookup_insert.
    destruct (decide (1 = j)).
    + intros Heq. injection Heq as <-. lia.
    + rewrite lookup_empty. discriminate.
  - lia.
  - lia.
Defined.

Example feed_renderItems :
  renderItems feed_props feed_rendered = Some [102; 103]%nat.
Proof. reflexivity. Qed.

Lemma renderItems_rows_witness :
  ∃ rows,
    renderItems feed_props feed_rendered = Some rows
    ∧ ∀ k, 0 ≤ k →
        nth_z rows k =
          if k <? 3 - 1 then nth_z feed_items (1 + k) else None.
Proof.
  apply (renderItems_rows feed_props feed_rendered feed_items).
  - reflexivity.
  - simpl. lia.
  - simpl. lia.
Defined.

(** A state without locks and timers is consistent. *)
Lemma no_locks_consistent {T : Type} (st : State T) :
  lockedHeights st = JsArray.empty →
  heightUnlockTimeouts st = JsArray.empty →
  timers st = ∅ →
  locks_consistent st.
Proof.
  intros HL HU HT. unfold locks_consistent, JsArray.get.
  rewrite HL, HU, HT. cbn [JsArray.elems JsArray.empty].
  split; [|split].
  - intros id i. by rewrite !lookup_empty.
  - intros id i. by rewrite lookup_empty.
  - intros i. by rewrite !lookup_empty.
Defined.

Lemma two_measured_consistent : locks_consistent two_measured.
Proof. apply no_locks_consistent; reflexivity. Defined.

Lemma two_locked_consistent : locks_consistent two_locked.
Proof.
  apply (lockRowHeight_consistent two_measured 0).
  exact two_measured_consistent.
Defined.

Lemma lockRowHeight_then_expiry_witness :
  JsArray.get (lockedHeights two_locked) 0 = Some 40
  ∧ JsArray.get (heightUnlockTimeouts two_locked) 0 = Some 1
  ∧ timers two_locked !! 1 = Some 0
  ∧ JsArray.get (lockedHeights (unlockRowHeight 1 two_locked)) 0 = None
  ∧ JsArray.get (heightUnlockTimeouts (unlockRowHeight 1 two_locked)) 0
    = None
  ∧ timers (unlockRowHeight 1 two_locked) !! 1 = None
  ∧ ∀ j, j ≠ 0 →
      JsArray.get (lockedHeights (unlockRowHeight 1 two_locked)) j
      = JsArray.get (lockedHeights two_measured) j.
Proof.
  apply (lockRowHeight_then_expiry two_measured 0 40).
  - reflexivity.
  - lia.
Defined.

Example relock_keeps_one_timer :
  size (timers two_locked) = 1%nat
  ∧ size (timers (lockRowHeight two_locked 0)) = 1%nat
  ∧ size (timers (lockRowHeight two_locked 1)) = 2%nat.
Proof. repeat split; reflexivity. Qed.

Lemma lockRowHeight_replaces_timer_witness :
  size (timers (lockRowHeight two_locked 0)) =
    if decide (is_Some (JsArray.get (lockedHeights two_locked) 0))
    then size (timers two_locked)
    else S (size (timers two_locked)).
Proof.
  apply (lockRowHeight_replaces_timer two_locked 0 40).
  - exact two_locked_consistent.
  - reflexivity.
  - lia.
Defined.

Lemma locks_consistent_kept_witness :
  (∀ index, locks_consistent (lockRowHeight two_measured index))
  ∧ (∀ id, locks_consistent (unlockRowHeight id two_measured))
  ∧ (∀ index, locks_consistent (jumpToIndex feed_props two_measured index))
  ∧ locks_consistent
      (step_state (recalculateRanges clampScrollTo feed_props two_measured))
  ∧ (∀ k, locks_consistent
            (recalculateRanges_resume clampScrollTo feed_props two_measured k))
  ∧ locks_consistent
      (step_state (onscroll clampScrollTo feed_props two_measured))
  ∧ (∀ countDelta headChanged tailChanged,
       locks_consistent
         (step_state
            (handleItemsChanged feed_props two_measured countDelta
               headChanged tailChanged))).
Proof.
  apply (locks_consistent_kept clampScrollTo feed_props two_measured).
  exact two_measured_consistent.
Defined.

(** One of the two measured items is removed at the end. *)
Definition shrunk_props : Props nat :=
  mkProps (Some [104]%nat) true 50 false None 10.

Example removal_cuts_heights :
  ∃ st', updateHeightMap shrunk_props two_measured (-1) false true = Some st'
         ∧ JsArray.get (heightMap st') 0 = Some 40
         ∧ JsArray.get (heightMap st') 1 = None
         ∧ JsArray.len (heightMap st') = 1.
Proof. eexists. repeat split; reflexivity. Qed.

Lemma updateHeightMap_resize_witness :
  ∃ st',
    updateHeightMap shrunk_props two_measured (-1) false true = Some st'
    ∧ JsArray.len (heightMap st') = 1
    ∧ (∀ i, i < 1 →
         JsArray.get (heightMap st') i
         = JsArray.get (heightMap two_measured) i)
    ∧ (∀ i, 1 ≤ i → JsArray.get (heightMap st') i = None)
    ∧ renderRange st' = renderRange two_measured
    ∧ lockedHeights st' = lockedHeights two_measured.
Proof.
  apply (updateHeightMap_resize shrunk_props two_measured [104]%nat (-1)
           false true).
  - reflexivity.
  - reflexivity.
  - reflexivity.
Defined.

(** The component with its viewport bound, before any list was seen. *)
Definition mounted : State nat :=
  set_viewport (Some (mkViewport 0 0 100)) fresh.

(** The feed as a chat: stick-to-bottom, with a start index as well. *)
Definition chat_props : Props nat :=
  mkProps (Some feed_items) true 50 true (Some 2) 10.

Example chat_starts_at_the_end :
  renderRange (itemsEffect chat_props feed_getId feed_truthy mounted)
    = mkRange 4 5
  ∧ renderRange (itemsEffect feed_props feed_getId feed_truthy mounted)
    = mkRange 0 1.
Proof. split; reflexivity. Qed.

Lemma itemsEffect_sizes_heightMap_witness :
  JsArray.len
    (heightMap (itemsEffect feed_props feed_getId feed_truthy mounted)) = 5
  ∧ previousItems (itemsEffect feed_props feed_getId feed_truthy mounted)
    = feed_items.
Proof.
  apply (itemsEffect_sizes_heightMap feed_props feed_getId feed_truthy
           mounted feed_items (mkViewport 0 0 100)).
  - reflexivity.
  - reflexivity.
  - discriminate.
Defined.

Lemma itemsEffect_starts_initialization_witness :
  renderRange (itemsEffect chat_props feed_getId feed_truthy mounted)
    = mkRange 4 (4 + 1).
Proof.
  apply (itemsEffect_starts_initialization chat_props feed_getId feed_truthy
           mounted feed_items (mkViewport 0 0 100)).
  - reflexivity.
  - reflexivity.
  - discriminate.
  - reflexivity.
  - reflexivity.
  - simpl. unfold zlength. simpl. lia.
Defined.

(** The chat showed items 104 and 105, rows 0 and 1; then 101, 102 and 103
    are put in front. *)
Definition chat_showing : State nat :=
  set_viewport (Some (mkViewport 0 70 100)) two_measured.

Example prepend_moves_range :
  ∃ st',
    handleItemsAdded chat_props chat_showing 3 true false
      = Awaiting st' (AddedPrepend 3)
    ∧ renderRange st' = mkRange 3 5
    ∧ renderItems chat_props st' = Some [104; 105]%nat.
Proof. eexists. repeat split; reflexivity. Qed.

Lemma handleItemsAdded_prepend_keeps_rows_witness :
  ∃ st',
    handleItemsAdded chat_props chat_showing 3 true false
      = Awaiting st' (AddedPrepend 3)
    ∧ r_start (renderRange st') = 0 + 3
    ∧ renderItems chat_props st' = Some (js_slice [104; 105]%nat 0 2)
    ∧ top (offset st') = sumRange chat_props st' 0 (r_start (renderRange st'))
    ∧ bottom (offset st')
      = sumRange chat_props st' (r_end (renderRange st'))
          (JsArray.len (heightMap st')).
Proof.
  apply (handleItemsAdded_prepend_keeps_rows chat_props chat_showing
           (mkViewport 0 70 100) [101; 102; 103]%nat [104; 105]%nat 3).
  - reflexivity.
  - reflexivity.
  - reflexivity.
  - reflexivity.
  - simpl. lia.
  - simpl. lia.
Defined.

(** The initialization of the feed at item 3, and the state the host shows
    at the first tick: the row of item 3, 50 high. *)
Definition init_waiting : State nat :=
  mkState (Some (mkViewport 0 50 100)) (Some [50]) []
    (JsArray.new 5) JsArray.empty JsArray.empty
    (mkRange 3 4) (mkRange 0 0) (mkOffset 0 0) 0 false false
    None None None false ∅ 1 0.

Example initialization_steps :
  initializeAt feed_props mounted 3
    = Awaiting (set_renderRange (mkRange 3 4) mounted) (InitForward 3 3)
  ∧ (∃ st', initializeAt_resume feed_props clampAssign init_waiting
              (InitForward 3 3) = Awaiting st' (InitForward 3 4)
            ∧ renderRange st' = mkRange 3 5
            ∧ JsArray.get (heightMap st') 3 = Some 50).
Proof. split; [reflexivity|]. eexists. repeat split; reflexivity. Qed.

(** The host as it renders: during a tick it shows one row of height [h]
    for every index of the render range. *)
Definition host_renders (h : Z) (st : State nat) : State nat :=
  mkState (viewport st)
    (Some (replicate
             (Z.to_nat (r_end (renderRange st) - r_start (renderRange st)))
             h))
    (previousItems st) (heightMap st) (lockedHeights st)
    (heightUnlockTimeouts st) (renderRange st) (visibleRange st) (offset st)
    (previousDistance st) (hasNewItemsAtBottom st) (isRecalculating st)
    (lastScrollTop st) (lastScrollDirection st) (lastJumpToIndex st)
    (skipNextScrollEvent st) (timers st) (nextTimerId st) (loadMoreCalls st).

(** An initialization at index 3 with rows of height 60: two ticks fill the
    list downwards, one more row is added above, and a last tick sets the
    scroll offset to the height above index 3. *)
Example initialization_runs :
  let r :=
    initializeAt_run clampAssign feed_props (λ _, host_renders 60) 6 0
      (initializeAt feed_props mounted 3) in
  waiting r = false
  ∧ renderRange (step_state r) = mkRange 2 5
  ∧ JsArray.get (heightMap (step_state r)) 2 = Some 60
  ∧ JsArray.get (heightMap (step_state r)) 3 = Some 60
  ∧ JsArray.get (heightMap (step_state r)) 4 = Some 60
  ∧ offset (step_state r) = mkOffset 100 0.
Proof. vm_compute. split_and!; reflexivity. Qed.

(** A jump during the first tick: [jumpToIndex 4] starts an initialization
    of its own and moves the render range to [{4, 5}]; the host then shows
    the row of item 4, 200 high.  The initialization at index 0, resumed,
    reads the row at position 0 and stores 200 as the height of item 0. *)
Definition jump_during_tick (t : nat) (st : State nat) : State nat :=
  match t with
  | O => host_renders 200 (jumpToIndex feed_props st 4)
  | _ => st
  end.

Example initialization_with_a_jump :
  let st' :=
    step_state
      (initializeAt_run clampAssign feed_props jump_during_tick 1 0
         (initializeAt feed_props mounted 0)) in
  renderRange st' = mkRange 4 5
  ∧ JsArray.get (heightMap st') 0 = Some 200
  ∧ JsArray.get (heightMap st') 4 = None.
Proof. vm_compute. split_and!; reflexivity. Qed.

Lemma initializeAt_terminates_witness :
  waiting
    (initializeAt_run clampAssign feed_props jump_during_tick
       (Z.to_nat (Z.max 0 (zlength feed_items - 0) + Z.max 0 0 + 1))
       O (initializeAt feed_props mounted 0))
  = false.
Proof.
  apply (initializeAt_terminates clampAssign feed_props jump_during_tick
           mounted feed_items 0).
  reflexivity.
Defined.

Lemma initializeAt_resume_after_tick_witness :
  (rowClientHeight init_waiting (3 - 3) = None →
   initializeAt_resume feed_props clampAssign init_waiting (InitForward 3 3)
   = Returned init_waiting)
  ∧ (rowClientHeight init_waiting 0 = None →
     initializeAt_resume feed_props clampAssign init_waiting
       (InitBackward 3 3)
     = Returned init_waiting)
  ∧ (rowClientHeight init_waiting (3 - 3) = Some 50 →
     JsArray.get
       (heightMap
          (step_state
             (initializeAt_resume feed_props clampAssign init_waiting
                (InitForward 3 3))))
       3
     = Some 50)
  ∧ (init_inv feed_items 3 init_waiting (InitForward 3 3) →
     match
       initializeAt_resume feed_props clampAssign init_waiting
         (InitForward 3 3)
     with
     | Awaiting st' k' => init_inv feed_items 3 st' k'
     | Returned st' | Thrown st' => range_holds feed_items 3 st'
     end).
Proof.
  apply (initializeAt_resume_after_tick clampAssign feed_props init_waiting
           feed_items 3 (InitForward 3 3) 3 3 50).
  reflexivity.
Defined.

(** The hypotheses of the last two parts hold at [init_waiting]. *)
Example init_waiting_as_left :
  rowClientHeight init_waiting (3 - 3) = Some 50
  ∧ init_inv feed_items 3 init_waiting (InitForward 3 3).
Proof.
  split; [reflexivity|].
  simpl. unfold range_holds, zlength. simpl. repeat split; lia.
Qed.

Lemma recalculateRanges_flag_witness :
  isRecalculating feed_waiting = true
  ∧ recalculateRanges clampScrollTo feed_props feed_waiting
    = Returned feed_waiting
  ∧ ∀ st'',
      isRecalculating
        (recalculateRanges_resume clampScrollTo feed_props st''
           (RecalcTick 70 1 4)) = false.
Proof.
  apply (recalculateRanges_flag clampScrollTo feed_props feed_rendered).
  reflexivity.
Defined.

Lemma recalculateRanges_offsets_total_witness :
  (∃ r, calculateVisibleRange feed_props feed_rendered = Some r
        ∧ renderRange feed_waiting = mkRange (renderStart r) (renderEnd r))
  ∧ heightMap feed_waiting = heightMap feed_rendered
  ∧ 0 ≤ r_start (renderRange feed_waiting)
  ∧ r_start (renderRange feed_waiting) < r_end (renderRange feed_waiting)
  ∧ r_end (renderRange feed_waiting) ≤ 5
  ∧ top (offset feed_waiting)
    = calculateHeightSum feed_props feed_waiting 0
        (r_start (renderRange feed_waiting))
  ∧ bottom (offset feed_waiting)
    = calculateHeightSum feed_props feed_waiting
        (r_end (renderRange feed_waiting)) 5.
Proof.
  apply (recalculateRanges_offsets_total clampScrollTo feed_props
           feed_rendered feed_waiting (RecalcTick 70 1 4) feed_items
           (mkViewport 60 230 100)).
  - reflexivity.
  - reflexivity.
  - discriminate.
  - reflexivity.
  - reflexivity.
  - simpl. lia.
  - simpl. lia.
Defined.

(** The list of [feed_rendered] has become empty. *)
Definition emptied_props : Props nat := mkProps (Some []) true 50 false None 10.

Lemma recalculateRanges_empty_list_witness :
  ∃ st',
    recalculateRanges clampScrollTo emptied_props feed_rendered
      = Awaiting st' (RecalcTick (getDistanceFromBottom feed_rendered) 0 0)
    ∧ renderRange st' = mkRange 0 0
    ∧ isInitialized st' = false
    ∧ top (offset st') = 0.
Proof.
  apply (recalculateRanges_empty_list clampScrollTo emptied_props
           feed_rendered (mkViewport 60 230 100) [30; 50]).
  - reflexivity.
  - reflexivity.
  - reflexivity.
  - reflexivity.
  - reflexivity.
Defined.

Lemma updateScrollDirection_tracks_witness :
  let st' := updateScrollDirection feed_rendered in
  lastScrollTop st' = Some 60
  ∧ (lastScrollDirection st' = Some up
     ↔ ∃ l, lastScrollTop feed_rendered = Some l ∧ 60 < l)
  ∧ (lastScrollDirection st' = Some down
     ↔ ∃ l, lastScrollTop feed_rendered = Some l ∧ l < 60)
  ∧ lastScrollDirection (updateScrollDirection st') = None.
Proof.
  apply (updateScrollDirection_tracks feed_rendered (mkViewport 60 230 100)).
  reflexivity.
Defined.

Lemma onscroll_after_jump_witness :
  let st1 := jumpToIndex feed_props feed_rendered 3 in
  let st2 := set_skipNextScrollEvent false st1 in
  onscroll clampScrollTo feed_props st1 = Returned st2
  ∧ lastScrollDirection st2 = None
  ∧ lastScrollTop st2 = lastScrollTop feed_rendered
  ∧ onscroll clampScrollTo feed_props st2
    = recalculateRanges clampScrollTo feed_props (updateScrollDirection st2).
Proof.
  apply (onscroll_after_jump clampScrollTo feed_props feed_rendered
           feed_items (mkViewport 60 230 100) 3).
  - reflexivity.
  - unfold zlength. simpl. lia.
  - reflexivity.
Defined.

(** The user scrolls up and the first rendered row, item 1, grows from 30
    to 45. *)
Definition scrolling_up : State nat :=
  set_lastScrollDirection (Some up)
    (set_heightMap (JsArray.set (heightMap feed_rendered) 1 45) feed_rendered).

Example resize_while_scrolling_up :
  compensateScrollForResize clampScrollTo feed_props clampAssign clampScrollBy
    scrolling_up 1 30
  = Returned (set_viewport (Some (mkViewport 75 230 100)) scrolling_up).
Proof. reflexivity. Qed.

Lemma compensateScrollForResize_scrolling_up_witness :
  compensateScrollForResize clampScrollTo feed_props clampAssign
    clampScrollBy scrolling_up 1 30
  = Returned (set_viewport (Some (mkViewport 75 230 100)) scrolling_up).
Proof.
  apply (compensateScrollForResize_scrolling_up clampScrollTo feed_props
           clampAssign clampScrollBy scrolling_up 1 30).
  reflexivity.
Defined.

(** A batch of resize entries: row 1 now 45 high, a detached row, row 2
    now 55 high, and row 1 again, 48 high. *)
Definition resize_batch : list ResizeEntry :=
  [ mkResizeEntry true true (Some 1) 45;
    mkResizeEntry false true (Some 2) 99;
    mkResizeEntry true true (Some 2) 55;
    mkResizeEntry true true (Some 1) 48 ].

Example resize_batch_recorded :
  let st' :=
    step_state
      (itemObserver clampScrollTo feed_props clampAssign clampScrollBy
         feed_rendered resize_batch) in
  JsArray.get (heightMap st') 1 = Some 48
  ∧ JsArray.get (heightMap st') 2 = Some 55
  ∧ JsArray.get (heightMap st') 3 = None.
Proof. cbv zeta. repeat split; reflexivity. Qed.

Lemma itemObserver_records_heights_witness :
  match
    itemObserver clampScrollTo feed_props clampAssign clampScrollBy
      feed_rendered resize_batch
  with
  | Thrown _ => True
  | (Returned st' | Awaiting st' _) as s =>
      (∀ i, JsArray.get (heightMap st') i =
              match reported resize_batch i with
              | Some h => Some h
              | None => JsArray.get (heightMap feed_rendered) i
              end)
      ∧ (existsb usable resize_batch = false → s = Returned feed_rendered)
      ∧ (existsb usable resize_batch = true →
         ∃ st1,
           observe_entries clampScrollTo feed_props clampAssign clampScrollBy
             feed_rendered false resize_batch = inl (st1, true)
           ∧ s = recalculateRanges clampScrollTo feed_props st1)
  end.
Proof.
  apply (itemObserver_records_heights clampScrollTo feed_props clampAssign
           clampScrollBy feed_rendered resize_batch (mkViewport 60 230 100)).
  reflexivity.
Defined.
